(** * NutriBot.ai: the chat client's retry wrapper and history, and the
      proxy's normalisation of the provider's answer

    The development has two parts, one per program of the repository:
    - [Client]: the browser script ([fetchWithRetry], [displayMessage],
      [sendMessage]) as state passing over the page and a trace of the
      network and timer events it causes;
    - [Server]: the Express route of [server.js] as a function of the parsed
      request body and of the provider's answer.

    What lies outside the two files is a parameter: the network (what the
    n-th call of [fetch] yields) on the client, the provider call
    ([ai.models.generateContent]) on the server. *)

From Stdlib Require Import ZArith List String Ascii Bool Arith Lia.
From stdpp Require Import base option list strings pretty.
From Equations Require Import Equations.
Import ListNotations.

#[local] Set Warnings "-register-all".

Local Open Scope string_scope.
Local Open Scope list_scope.

(** A JavaScript exception value: [new Error(msg)] has [name = "Error"]. *)
Record JsError := { name : string; message : string }.

Definition Error (msg : string) : JsError := {| name := "Error"; message := msg |}.
Definition TypeError (msg : string) : JsError := {| name := "TypeError"; message := msg |}.

(** The value a [try] block completes with: thrown error or result. *)
Definition Completion (A : Type) : Type := JsError + A.

(** [!s] is false exactly for the non-empty strings. *)
Definition truthy_string (s : string) : bool :=
  match s with
  | EmptyString => false
  | String _ _ => true
  end.

Module Client.

(** ** Configuration *)

Definition CHAT_API_ENDPOINT : string := "http://localhost:3000/api/chat".
Definition MAX_RETRIES : nat := 5.

(** ** Data *)

(** One element of a turn's [parts] array. *)
Record Part := { text : string }.

(** [{ role: ..., parts: [{ text: ... }] }]. *)
Record Turn := { role : string; parts : list Part }.

(** A citation as the proxy sends it. *)
Record Source := { uri : string; title : string }.

(** The body of a success response, [{ text, sources }]: the shape the
    proxy of this repository writes with [res.json]. *)
Inductive Reply := mkReply (text : string) (sources : list Source).

(** The second argument of [fetch]. [body] is the text
    [JSON.stringify({ chatHistory: h })], kept as the [h] it serialises. *)
Record Options := {
  method : string;
  headers : list (string * string);
  body : list Turn
}.

(** What [response.json()] settles with. *)
Inductive Parsed :=
| ParseFails (e : JsError)
| Parses (v : Reply).

Record Response := { status : nat; json : Parsed }.

(** [response.ok]: the status is in the range 200-299. *)
Definition ok (r : Response) : bool :=
  ((200 <=? status r) && (status r <=? 299))%nat.

(** What [fetch(url, options)] settles with: it rejects on a transport
    failure and resolves with a response of any status otherwise. *)
Inductive FetchOutcome :=
| Rejects (e : JsError)
| Resolves (r : Response).

(** The observable events of the script, oldest first. *)
Inductive Event :=
| Fetched (url : string) (options : Options)
| Slept (ms : Z).

Definition Trace := list Event.

Definition is_fetch (ev : Event) : bool :=
  match ev with
  | Fetched _ _ => true
  | Slept _ => false
  end.

(** Number of calls of [fetch] so far. *)
Definition fetches (tr : Trace) : nat := length (List.filter is_fetch tr).

Definition delays (tr : Trace) : list Z :=
  flat_map (fun ev => match ev with Slept ms => [ms] | Fetched _ _ => [] end) tr.

Definition total_delay (tr : Trace) : Z := fold_right Z.add 0%Z (delays tr).

Section Network.

(** The network: what the [n]-th call of [fetch] on this page (counted from
    0) settles with, given its arguments. *)
Variable network : nat -> string -> Options -> FetchOutcome.

(** The [try] block of [fetchWithRetry]: one call of [fetch], the status
    check and the parse of the body. *)
Definition attempt (url : string) (options : Options) (tr : Trace)
  : Completion Reply * Trace :=
  let tr' := tr ++ [Fetched url options] in
  match network (fetches tr) url options with
  | Rejects e => (inl e, tr')
  | Resolves response =>
      if negb (ok response)
      then (inl (Error ("HTTP error! status: " ++ pretty (status response))), tr')
      else match json response with
           | ParseFails e => (inl e, tr')
           | Parses v => (inr v, tr')
           end
  end.

(** [await new Promise(resolve => setTimeout(resolve, delay))]. *)
Definition sleep (ms : Z) (tr : Trace) : Trace := tr ++ [Slept ms].

(** [Math.pow(2, retries) * 1000], in milliseconds. *)
Definition backoff (retries : nat) : Z := (2 ^ Z.of_nat retries * 1000)%Z.

(** [fetchWithRetry(url, options, retries)]: the recursion of the [catch]
    block is bounded by [MAX_RETRIES - retries]. *)
Equations? fetchWithRetry (url : string) (options : Options) (retries : nat)
  (tr : Trace) : Completion Reply * Trace by wf (MAX_RETRIES - retries) lt :=
  fetchWithRetry url options retries tr with attempt url options tr => {
    | (inr v, tr1) => (inr v, tr1)
    | (inl error, tr1) with lt_dec retries MAX_RETRIES => {
        | left _ => fetchWithRetry url options (S retries) (sleep (backoff retries) tr1)
        | right _ => (inl error, tr1) } }.
Proof. unfold MAX_RETRIES in *. lia. Qed.

End Network.

(** ** The page *)

(** A [div] the script creates: its class and the markup assigned to its
    [innerHTML]. *)
Record Div := { className : string; innerHTML : string }.

(** A message wrapper: its class and the [div]s appended to it. *)
Record Wrapper := { wrapperClass : string; children : list Div }.

(** The state the script reads and writes: its global [chatHistory], the
    controls it looks up by id ([user-input], [send-button], [send-text],
    [loading-spinner], [chat-window]; the page is taken to have them), the
    console and the trace of network and timer events. *)
Record Page := {
  chatHistory : list Turn;
  input_value : string;
  input_disabled : bool;
  input_focused : bool;
  send_disabled : bool;
  send_text_hidden : bool;
  spinner_hidden : bool;
  chat_window : list Wrapper;
  console : list JsError;
  trace : Trace
}.

Definition set_chatHistory (h : list Turn) (st : Page) : Page :=
  {| chatHistory := h; input_value := input_value st;
     input_disabled := input_disabled st; input_focused := input_focused st;
     send_disabled := send_disabled st; send_text_hidden := send_text_hidden st;
     spinner_hidden := spinner_hidden st; chat_window := chat_window st;
     console := console st; trace := trace st |}.

Definition set_input_value (v : string) (st : Page) : Page :=
  {| chatHistory := chatHistory st; input_value := v;
     input_disabled := input_disabled st; input_focused := input_focused st;
     send_disabled := send_disabled st; send_text_hidden := send_text_hidden st;
     spinner_hidden := spinner_hidden st; chat_window := chat_window st;
     console := console st; trace := trace st |}.

Definition set_input_disabled (b : bool) (st : Page) : Page :=
  {| chatHistory := chatHistory st; input_value := input_value st;
     input_disabled := b; input_focused := input_focused st;
     send_disabled := send_disabled st; send_text_hidden := send_text_hidden st;
     spinner_hidden := spinner_hidden st; chat_window := chat_window st;
     console := console st; trace := trace st |}.

Definition set_input_focused (b : bool) (st : Page) : Page :=
  {| chatHistory := chatHistory st; input_value := input_value st;
     input_disabled := input_disabled st; input_focused := b;
     send_disabled := send_disabled st; send_text_hidden := send_text_hidden st;
     spinner_hidden := spinner_hidden st; chat_window := chat_window st;
     console := console st; trace := trace st |}.

Definition set_send_disabled (b : bool) (st : Page) : Page :=
  {| chatHistory := chatHistory st; input_value := input_value st;
     input_disabled := input_disabled st; input_focused := input_focused st;
     send_disabled := b; send_text_hidden := send_text_hidden st;
     spinner_hidden := spinner_hidden st; chat_window := chat_window st;
     console := console st; trace := trace st |}.

Definition set_send_text_hidden (b : bool) (st : Page) : Page :=
  {| chatHistory := chatHistory st; input_value := input_value st;
     input_disabled := input_disabled st; input_focused := input_focused st;
     send_disabled := send_disabled st; send_text_hidden := b;
     spinner_hidden := spinner_hidden st; chat_window := chat_window st;
     console := console st; trace := trace st |}.

Definition set_spinner_hidden (b : bool) (st : Page) : Page :=
  {| chatHistory := chatHistory st; input_value := input_value st;
     input_disabled := input_disabled st; input_focused := input_focused st;
     send_disabled := send_disabled st; send_text_hidden := send_text_hidden st;
     spinner_hidden := b; chat_window := chat_window st;
     console := console st; trace := trace st |}.

Definition set_chat_window (w : list Wrapper) (st : Page) : Page :=
  {| chatHistory := chatHistory st; input_value := input_value st;
     input_disabled := input_disabled st; input_focused := input_focused st;
     send_disabled := send_disabled st; send_text_hidden := send_text_hidden st;
     spinner_hidden := spinner_hidden st; chat_window := w;
     console := console st; trace := trace st |}.

Definition set_console (c : list JsError) (st : Page) : Page :=
  {| chatHistory := chatHistory st; input_value := input_value st;
     input_disabled := input_disabled st; input_focused := input_focused st;
     send_disabled := send_disabled st; send_text_hidden := send_text_hidden st;
     spinner_hidden := spinner_hidden st; chat_window := chat_window st;
     console := c; trace := trace st |}.

Definition set_trace (tr : Trace) (st : Page) : Page :=
  {| chatHistory := chatHistory st; input_value := input_value st;
     input_disabled := input_disabled st; input_focused := input_focused st;
     send_disabled := send_disabled st; send_text_hidden := send_text_hidden st;
     spinner_hidden := spinner_hidden st; chat_window := chat_window st;
     console := console st; trace := tr |}.

(** The page as the script finds it when it is loaded:
    [let chatHistory = []], nothing displayed, nothing requested. *)
Definition initial_page : Page :=
  {| chatHistory := []; input_value := ""; input_disabled := false;
     input_focused := false; send_disabled := true; send_text_hidden := false;
     spinner_hidden := true; chat_window := []; console := []; trace := [] |}.

(** ** Strings *)

(** The code units that [String.prototype.trim] strips (white space and
    line terminators), among the code units below 256 that a [string]
    holds here: TAB, LF, VT, FF, CR, SP and NBSP. *)
Definition is_space (c : ascii) : bool :=
  let n := nat_of_ascii c in
  ((9 <=? n) && (n <=? 13) || (n =? 32) || (n =? 160))%nat.

Fixpoint trimStart (s : string) : string :=
  match s with
  | EmptyString => EmptyString
  | String c s' => if is_space c then trimStart s' else s
  end.

Fixpoint trimEnd (s : string) : string :=
  match s with
  | EmptyString => EmptyString
  | String c s' =>
      match trimEnd s' with
      | EmptyString => if is_space c then EmptyString else String c EmptyString
      | r => String c r
      end
  end.

Definition trim (s : string) : string := trimEnd (trimStart s).

(** [text.replace(/\\n/g, '<br>')]. *)
Fixpoint replace_newlines (s : string) : string :=
  match s with
  | EmptyString => EmptyString
  | String c s' =>
      if (nat_of_ascii c =? 10)%nat
      then "<br>" ++ replace_newlines s'
      else String c (replace_newlines s')
  end.

(** The double quote character of the markup templates. *)
Definition dq : string := String (ascii_of_nat 34) EmptyString.

(** ** displayMessage *)

(** The anchor that [displayMessage] writes for the source at [index]. *)
Definition source_link (index : nat) (s : Source) : string :=
  "<a href=" ++ dq ++ uri s ++ dq ++ " target=" ++ dq ++ "_blank" ++ dq
  ++ " class=" ++ dq ++ "hover:underline text-emerald-600 block" ++ dq
  ++ " title=" ++ dq ++ title s ++ dq ++ ">Source " ++ pretty (index + 1)%nat
  ++ ": " ++ title s ++ "</a>".

(** The wrapper element that [displayMessage(text, isUser, sources)] builds. *)
Definition messageWrapper (text : string) (isUser : bool) (sources : list Source)
  : Wrapper :=
  let bubble :=
    {| className := "message-bubble p-3 rounded-xl shadow mt-2 "
                      ++ (if isUser then "user-message" else "bot-message");
       innerHTML := if isUser then text else replace_newlines text |} in
  let sourceContainer :=
    {| className := "text-xs text-gray-500 mt-1 max-w-sm ml-10";
       innerHTML := "Grounded Sources:<br>"
                      ++ String.concat "" (imap source_link sources) |} in
  {| wrapperClass := "flex " ++ (if isUser then "justify-end" else "justify-start");
     children := if (0 <? length sources)%nat
                 then [bubble; sourceContainer] else [bubble] |}.

(** [displayMessage]: the wrapper is appended to the chat window (the
    scroll position is layout and is not kept). *)
Definition displayMessage (text : string) (isUser : bool) (sources : list Source)
  (st : Page) : Page :=
  set_chat_window (chat_window st ++ [messageWrapper text isUser sources]) st.

(** ** sendMessage *)

Definition FALLBACK_MESSAGE : string :=
  "An error occurred while communicating with the server. Please check if the Node.js server is running (http://localhost:3000).".

(** The options of the request that carries the history [h]. *)
Definition request_options (h : list Turn) : Options :=
  {| method := "POST";
     headers := [("Content-Type", "application/json")];
     body := h |}.

Definition user_turn (userQuery : string) : Turn :=
  {| role := "user"; parts := [ {| text := userQuery |} ] |}.

Definition model_turn (botText : string) : Turn :=
  {| role := "model"; parts := [ {| text := botText |} ] |}.

Section Controller.

Variable network : nat -> string -> Options -> FetchOutcome.

(** [window.sendMessage], run from its call to the settling of its promise
    with no other handler of the page run in between. *)
Definition sendMessage (st : Page) : Page :=
  let userQuery := trim (input_value st) in
  if negb (truthy_string userQuery) then st else
  (* 1. Update UI and disable input *)
  let st := displayMessage userQuery true [] st in
  let st := set_input_value "" st in
  let st := set_input_disabled true st in
  let st := set_send_disabled true st in
  let st := set_send_text_hidden true st in
  let st := set_spinner_hidden false st in
  (* 2. Add user message to history *)
  let st := set_chatHistory (chatHistory st ++ [user_turn userQuery]) st in
  let st :=
    (* try: 3. Call the backend *)
    match fetchWithRetry network CHAT_API_ENDPOINT
            (request_options (chatHistory st)) 0 (trace st) with
    | (inr result, tr) =>
        let st := set_trace tr st in
        let '(mkReply botText sources) := result in
        (* 4. Add bot message to history *)
        let st := set_chatHistory (chatHistory st ++ [model_turn botText]) st in
        (* 5. Display the bot's response *)
        displayMessage botText false sources st
    | (inl error, tr) =>
        (* catch *)
        let st := set_trace tr st in
        let st := set_console (console st ++ [error]) st in
        displayMessage FALLBACK_MESSAGE false [] st
    end in
  (* finally: 6. Restore UI state *)
  let st := set_input_disabled false st in
  let st := set_send_disabled false st in
  let st := set_send_text_hidden false st in
  let st := set_spinner_hidden true st in
  set_input_focused true st.

(** A user submission: the text [v] is put in the input field (typed, or
    written by a quick-action button) and [sendMessage] runs. *)
Definition submit (v : string) (st : Page) : Page :=
  sendMessage (set_input_value v st).

(** A sequence of submissions, each one settled before the next starts. *)
Fixpoint submit_all (inputs : list string) (st : Page) : Page :=
  match inputs with
  | [] => st
  | v :: rest => submit_all rest (submit v st)
  end.

(** What the retry wrapper settles with when [sendMessage] calls it for the
    query [userQuery] on the page [st]. *)
Definition round_trip (userQuery : string) (st : Page) : Completion Reply * Trace :=
  fetchWithRetry network CHAT_API_ENDPOINT
    (request_options (chatHistory st ++ [user_turn userQuery])) 0 (trace st).

(** The submission of [v] on [st] reaches the backend and its round trip
    succeeds: the retry wrapper returns a reply. *)
Definition round_trip_succeeds (v : string) (st : Page) : bool :=
  truthy_string (trim v) &&
  match fst (round_trip (trim v) st) with
  | inr _ => true
  | inl _ => false
  end.

(** The submission of [v] on [st] reaches the backend and its round trip
    fails for good: the retry wrapper throws. *)
Definition round_trip_fails (v : string) (st : Page) : bool :=
  truthy_string (trim v) &&
  match fst (round_trip (trim v) st) with
  | inr _ => false
  | inl _ => true
  end.

Fixpoint all_succeed (inputs : list string) (st : Page) : bool :=
  match inputs with
  | [] => true
  | v :: rest => round_trip_succeeds v st && all_succeed rest (submit v st)
  end.

End Controller.

(** ** Vocabulary of the statements *)

(** An attempt fails in transit: [fetch] rejects, or the response has a
    status outside the success range. *)
Definition fails_in_transit (o : FetchOutcome) : bool :=
  match o with
  | Rejects _ => true
  | Resolves r => negb (ok r)
  end.

(** The error that such an attempt throws. *)
Definition transit_error (o : FetchOutcome) : JsError :=
  match o with
  | Rejects e => e
  | Resolves r => Error ("HTTP error! status: " ++ pretty (status r))
  end.

(** The events of a retry chain in which the attempts numbered
    [retries .. retries + budget] all fail: [budget + 1] requests with the
    back-off waits between them. *)
Fixpoint failing_chain (url : string) (options : Options) (retries budget : nat)
  : list Event :=
  match budget with
  | O => [Fetched url options]
  | S budget' =>
      Fetched url options :: Slept (backoff retries)
        :: failing_chain url options (S retries) budget'
  end.

(** The roles start with [expected] and alternate with [other]. *)
Fixpoint alternates_from (expected other : string) (roles : list string) : bool :=
  match roles with
  | [] => true
  | r :: rest => String.eqb r expected && alternates_from other expected rest
  end.

Definition alternates (roles : list string) : bool :=
  alternates_from "user" "model" roles.

(** The input holds nothing but the code units that [trim] strips. *)
Fixpoint whitespace_only (s : string) : bool :=
  match s with
  | EmptyString => true
  | String c s' => is_space c && whitespace_only s'
  end.

(** The turns of a list of completed exchanges (query, answer). *)
Definition exchanges (l : list (string * string)) : list Turn :=
  flat_map (fun qa => [user_turn (fst qa); model_turn (snd qa)]) l.

(** The histories carried by the requests of a trace. *)
Definition sent_histories (tr : Trace) : list (list Turn) :=
  flat_map (fun ev => match ev with
                      | Fetched _ options => [body options]
                      | Slept _ => []
                      end) tr.

(** ** Sample networks and pages *)

Definition sample_reply : Reply :=
  mkReply "Try oats with berries." [ {| uri := "https://example.org/oats"; title := "Oats" |} ].

(** Every request is answered with status 200 and a well-formed body. *)
Definition healthy : nat -> string -> Options -> FetchOutcome :=
  fun _ _ _ => Resolves {| status := 200; json := Parses sample_reply |}.

(** No request reaches the server. *)
Definition unreachable : nat -> string -> Options -> FetchOutcome :=
  fun _ _ _ => Rejects (TypeError "Failed to fetch").

(** The first [n] requests are answered with status 503, the later ones
    as by [healthy]. *)
Definition down_for (n : nat) : nat -> string -> Options -> FetchOutcome :=
  fun k url options =>
    if (k <? n)%nat
    then Resolves {| status := 503;
                     json := ParseFails {| name := "SyntaxError"; message := "Unexpected token" |} |}
    else healthy k url options.

(** The first request is answered with status 200 and a body that is not
    JSON, the later ones as by [healthy]. *)
Definition garbled_once : nat -> string -> Options -> FetchOutcome :=
  fun k url options =>
    match k with
    | O => Resolves {| status := 200;
                       json := ParseFails {| name := "SyntaxError"; message := "Unexpected end of JSON input" |} |}
    | S _ => healthy k url options
    end.

(** The page with [v] in its input field. *)
Definition typed (v : string) : Page := set_input_value v initial_page.

(** The roles of [n] complete exchanges. *)
Fixpoint alternating (n : nat) : list string :=
  match n with
  | O => []
  | S n' => "user" :: "model" :: alternating n'
  end.

End Client.

Module Server.

(** ** Configuration *)

Definition port : nat := 3000.

Definition MODEL_NAME : string := "gemini-2.5-flash-preview-09-2025".

Definition SYSTEM_PROMPT : string :=
"You are 'Nutrition Bot,' an expert, friendly, and encouraging meal and diet planner. Your primary goal is to provide healthy, balanced, and evidence-based nutrition advice, customized meal ideas, and general dietary information. 
When providing meal plans or complex lists:
1. Use Markdown formatting (e.g., **bold**, *italics*, lists) to make the response easy to read.
2. Ensure the advice is practical and includes macronutrient context or portion guidance where applicable.
3. Always maintain a professional, optimistic, and supportive tone.
Use the Google Search tool to ensure all facts, recommended foods, and dietary guidelines are current and accurate.".

(** ** Request bodies *)

(** A parsed JSON value, as [express.json()] leaves it in [req.body]. *)
Inductive Json :=
| JNull
| JBool (b : bool)
| JNum (n : Z)
| JStr (s : string)
| JArr (items : list Json)
| JObj (members : list (string * Json)).

(** A JavaScript value read from a property: [None] is [undefined]. *)
Definition JsValue := option Json.

(** The value of the member [k] of a parsed object: of duplicate keys the
    last one wins. *)
Fixpoint member (k : string) (members : list (string * Json)) : JsValue :=
  match members with
  | [] => None
  | (k', v) :: rest =>
      match member k rest with
      | Some v' => Some v'
      | None => if String.eqb k k' then Some v else None
      end
  end.

(** [v.k] for a parsed value [v] other than [null]: only objects have
    members of their own. *)
Definition prop (v : Json) (k : string) : JsValue :=
  match v with
  | JObj members => member k members
  | _ => None
  end.

(** [!!v]. *)
Definition truthy (v : JsValue) : bool :=
  match v with
  | None => false
  | Some JNull => false
  | Some (JBool b) => b
  | Some (JNum n) => negb (n =? 0)%Z
  | Some (JStr s) => truthy_string s
  | Some (JArr _) => true
  | Some (JObj _) => true
  end.

(** [Array.isArray(v)]. *)
Definition isArray (v : JsValue) : bool :=
  match v with
  | Some (JArr _) => true
  | _ => false
  end.

(** ** The provider's interface *)

(** The answer of [ai.models.generateContent], by the shape the handler
    reads: every property may be missing. *)
Module Upstream.

Record Web := { uri : option string; title : option string }.

Record GroundingAttribution := { web : option Web }.

Record GroundingMetadata := {
  groundingAttributions : option (list GroundingAttribution)
}.

Record Part := { text : option string }.

Record Content := { parts : option (list Part) }.

Record Candidate := {
  content : option Content;
  groundingMetadata : option GroundingMetadata
}.

Record GenerateContentResponse := { candidates : option (list Candidate) }.

End Upstream.

Inductive Tool := googleSearch.

Record Config := { tools : list Tool; systemInstruction : string }.

(** The argument of [ai.models.generateContent]. *)
Record GenerateContentParameters := {
  model : string;
  contents : JsValue;
  config : Config
}.

(** ** Responses *)

(** A source object of the handler: [uri] and [title] are whatever the
    attribution holds, [None] for [undefined]. *)
Record Source := { uri : option string; title : option string }.

(** The JSON bodies the handler writes. *)
Inductive Body :=
| ErrorBody (error : string)
| ChatBody (text : string) (sources : list Source).

Record HttpResponse := { status : nat; body : Body }.

(** [res.status(code).json(b)]; [res.json(b)] alone leaves the status at
    its default, 200. *)
Definition res_status_json (code : nat) (b : Body) : HttpResponse :=
  {| status := code; body := b |}.

Definition res_json (b : Body) : HttpResponse := res_status_json 200 b.

(** How a request ends. *)
Inductive Outcome :=
| Responded (r : HttpResponse)
| Uncaught (e : JsError)
| NoRoute.

(** A served request: its outcome, the provider calls made for it and the
    lines written with [console.error]. *)
Record Served := {
  outcome : Outcome;
  upstream_calls : list GenerateContentParameters;
  console : list JsError
}.

(** ** The handler *)

(** [o?.[0]] on an optional array. *)
Definition first {A : Type} (o : option (list A)) : option A :=
  match o with
  | Some l => l !! 0%nat
  | None => None
  end.

(** [candidate.content?.parts?.[0]?.text]. *)
Definition first_part_text (candidate : Upstream.Candidate) : option string :=
  match Upstream.content candidate with
  | None => None
  | Some content =>
      match first (Upstream.parts content) with
      | None => None
      | Some part => Upstream.text part
      end
  end.

Definition truthy_opt_string (o : option string) : bool :=
  match o with
  | Some s => truthy_string s
  | None => false
  end.

(** The [.map] callback: [{ uri: attribution.web?.uri, title: attribution.web?.title }]. *)
Definition to_source (attribution : Upstream.GroundingAttribution) : Source :=
  {| uri := match Upstream.web attribution with
            | Some w => Upstream.uri w
            | None => None
            end;
     title := match Upstream.web attribution with
              | Some w => Upstream.title w
              | None => None
              end |}.

(** The [.filter] callback: [source.uri && source.title]. *)
Definition has_uri_and_title (source : Source) : bool :=
  truthy_opt_string (uri source) && truthy_opt_string (title source).

Definition PLACEHOLDER_TEXT : string :=
  "Sorry, I couldn't generate a response. Please try again.".

Definition INVALID_INPUT : HttpResponse :=
  res_status_json 400 (ErrorBody "Invalid chat history provided.").

Definition UPSTREAM_FAILURE : HttpResponse :=
  res_status_json 500 (ErrorBody "Failed to communicate with the AI service.").

(** Lines 60-80: the normalisation of the provider's answer into the
    success response. *)
Definition normalize (response : Upstream.GenerateContentResponse) : HttpResponse :=
  let candidate := first (Upstream.candidates response) in
  let botText := PLACEHOLDER_TEXT in
  let sources := [] in
  let '(botText, sources) :=
    match candidate with
    | Some candidate =>
        match first_part_text candidate with
        | Some t =>
            if truthy_string t then
              let botText := t in
              let sources :=
                match Upstream.groundingMetadata candidate with
                | Some groundingMetadata =>
                    match Upstream.groundingAttributions groundingMetadata with
                    | Some attributions =>
                        List.filter has_uri_and_title (map to_source attributions)
                    | None => sources
                    end
                | None => sources
                end in
              (botText, sources)
            else (botText, sources)
        | None => (botText, sources)
        end
    | None => (botText, sources)
    end in
  res_json (ChatBody botText sources).

Definition chat_params (chatHistory : JsValue) : GenerateContentParameters :=
  {| model := MODEL_NAME;
     contents := chatHistory;
     config := {| tools := [googleSearch];
                  systemInstruction := SYSTEM_PROMPT |} |}.

Section Handler.

(** The provider: what [ai.models.generateContent] settles with, an error
    thrown or an answer. *)
Variable generateContent :
  GenerateContentParameters -> Completion Upstream.GenerateContentResponse.

(** The callback of [app.post('/api/chat', ...)], given [req.body]. *)
Definition chat_handler (req_body : Json) : Served :=
  match req_body with
  | JNull =>
      (* destructuring [null] throws before the [try] *)
      {| outcome := Uncaught (TypeError "Cannot destructure property 'chatHistory' of 'req.body' as it is null.");
         upstream_calls := []; console := [] |}
  | _ =>
      let chatHistory := prop req_body "chatHistory" in
      if negb (truthy chatHistory) || negb (isArray chatHistory) then
        {| outcome := Responded INVALID_INPUT; upstream_calls := []; console := [] |}
      else
        let params := chat_params chatHistory in
        match generateContent params with
        | inr response =>
            {| outcome := Responded (normalize response);
               upstream_calls := [params]; console := [] |}
        | inl error =>
            {| outcome := Responded UPSTREAM_FAILURE;
               upstream_calls := [params]; console := [error] |}
        end
  end.

(** ** Routing *)

Inductive Method := GET | POST | PUT | DELETE | OPTIONS.

Definition is_post (m : Method) : bool :=
  match m with
  | POST => true
  | _ => false
  end.

(** The one route the program registers, on the literal path. A request
    that no route takes is left to the static files and the framework:
    [NoRoute]. *)
Definition app (m : Method) (path : string) (req_body : Json) : Served :=
  if is_post m && String.eqb path "/api/chat"
  then chat_handler req_body
  else {| outcome := NoRoute; upstream_calls := []; console := [] |}.

End Handler.

(** ** Vocabulary of the statements *)

(** The first candidate's first content part's text,
    [response.candidates?.[0]?.content?.parts?.[0]?.text]. *)
Definition first_text (response : Upstream.GenerateContentResponse) : option string :=
  match first (Upstream.candidates response) with
  | Some candidate => first_part_text candidate
  | None => None
  end.

(** That text is present: defined and not empty. *)
Definition text_present (response : Upstream.GenerateContentResponse) : bool :=
  truthy_opt_string (first_text response).

(** The grounding attributions of the first candidate, [None] when the
    candidate, its grounding metadata or the attribution list is missing. *)
Definition attributions_of (response : Upstream.GenerateContentResponse)
  : option (list Upstream.GroundingAttribution) :=
  match first (Upstream.candidates response) with
  | Some candidate =>
      match Upstream.groundingMetadata candidate with
      | Some groundingMetadata => Upstream.groundingAttributions groundingMetadata
      | None => None
      end
  | None => None
  end.

(** In the words of the specification: an attribution is kept, as
    [{uri, title}], when it has both fields and neither is empty. *)
Definition complete (a : Upstream.GroundingAttribution) : option Source :=
  match Upstream.web a with
  | Some w =>
      match Upstream.uri w, Upstream.title w with
      | Some u, Some t =>
          if truthy_string u && truthy_string t
          then Some {| uri := Some u; title := Some t |}
          else None
      | _, _ => None
      end
  | None => None
  end.

Definition complete_attributions (l : list Upstream.GroundingAttribution) : list Source :=
  omap complete l.

(** Both fields of a returned source are defined and not empty. *)
Definition well_formed (s : Source) : Prop :=
  exists u t, uri s = Some u /\ title s = Some t /\ u <> "" /\ t <> "".

(** ** Sample requests and answers *)

Definition valid_body : Json :=
  JObj [("chatHistory",
         JArr [JObj [("role", JStr "user");
                     ("parts", JArr [JObj [("text", JStr "Breakfast ideas?")]])]])].

Definition body_without_history : Json := JObj [("history", JArr [])].

Definition body_with_text_history : Json := JObj [("chatHistory", JStr "hello")].

Definition attribution (u t : option string) : Upstream.GroundingAttribution :=
  {| Upstream.web := Some {| Upstream.uri := u; Upstream.title := t |} |}.

Definition sample_attributions : list Upstream.GroundingAttribution :=
  [attribution (Some "https://example.org/oats") (Some "Oats");
   attribution (Some "https://example.org/untitled") None;
   {| Upstream.web := None |};
   attribution (Some "https://example.org/rice") (Some "Rice")].

Definition answer (parts : list Upstream.Part)
  (metadata : option Upstream.GroundingMetadata) : Upstream.GenerateContentResponse :=
  {| Upstream.candidates :=
       Some [ {| Upstream.content := Some {| Upstream.parts := Some parts |};
                 Upstream.groundingMetadata := metadata |} ] |}.

(** A text with grounding attributions, two of them complete. *)
Definition grounded_answer : Upstream.GenerateContentResponse :=
  answer [ {| Upstream.text := Some "Try oats." |} ]
         (Some {| Upstream.groundingAttributions := Some sample_attributions |}).

(** A text without grounding metadata. *)
Definition plain_answer : Upstream.GenerateContentResponse :=
  answer [ {| Upstream.text := Some "Try oats." |} ] None.

(** No content part, yet the same grounding attributions. *)
Definition textless_answer : Upstream.GenerateContentResponse :=
  answer [] (Some {| Upstream.groundingAttributions := Some sample_attributions |}).

Definition answers (response : Upstream.GenerateContentResponse)
  : GenerateContentParameters -> Completion Upstream.GenerateContentResponse :=
  fun _ => inr response.

Definition throws (error : JsError)
  : GenerateContentParameters -> Completion Upstream.GenerateContentResponse :=
  fun _ => inl error.

End Server.

(** * Vocabulary for the retry wrapper *)

Module Retry.
Import Client.

(** What the [try] block of [fetchWithRetry] completes with when [fetch]
    settles with [o]. *)
Definition settle (o : FetchOutcome) : Completion Reply :=
  match o with
  | Rejects e => inl e
  | Resolves response =>
      if negb (ok response)
      then inl (Error ("HTTP error! status: " ++ pretty (status response)))
      else match json response with
           | ParseFails e => inl e
           | Parses v => inr v
           end
  end.

(** The attempt fails, in transit or in the parse of the body. *)
Definition failed (o : FetchOutcome) : bool :=
  match settle o with
  | inl _ => true
  | inr _ => false
  end.

(** Two networks that differ at most in the bodies of the responses whose
    status is outside 200-299. *)
Definition same_but_failed_bodies
  (network1 network2 : nat -> string -> Options -> FetchOutcome) : Prop :=
  forall n url options,
    network1 n url options = network2 n url options \/
    exists r1 r2,
      network1 n url options = Resolves r1 /\
      network2 n url options = Resolves r2 /\
      status r1 = status r2 /\
      ok r1 = false.

(** A network like [healthy] whose responses with status 503 carry a body
    that would parse. *)
Definition down_with_body (n : nat) : nat -> string -> Options -> FetchOutcome :=
  fun k url options =>
    if (k <? n)%nat
    then Resolves {| status := 503; json := Parses sample_reply |}
    else healthy k url options.

End Retry.

(** * The page's listeners, the sidebar and the quick-action buttons *)

Module Events.
Import Client.

(** ** The listeners of [DOMContentLoaded] *)

(** [send-button.disabled = user-input.value.trim() === '']: the statement
    that the [DOMContentLoaded] callback runs once and that the [input]
    listener runs after every edit of the field. *)
Definition refresh_send_button (st : Page) : Page :=
  set_send_disabled (String.eqb (trim (input_value st)) "") st.

Definition onDOMContentLoaded (st : Page) : Page := refresh_send_button st.

(** The [input] listener; [e.target.value] is the value of the field. *)
Definition onInput (st : Page) : Page := refresh_send_button st.

(** The user edits the field to [v]: the value changes and the [input]
    event is dispatched. *)
Definition edit (v : string) (st : Page) : Page := onInput (set_input_value v st).

(** ** The sidebar *)

(** What the sidebar code reads and writes: the class [sidebar-open] of the
    sidebar, the class [visible] of the backdrop, the attribute
    [aria-pressed] of the toggle ([None] while it is not set) and
    [document.body.style.overflow]. *)
Record Chrome := {
  sidebar_open : bool;
  backdrop_visible : bool;
  aria_pressed : option string;
  body_overflow : string
}.

Definition openSidebar (c : Chrome) : Chrome :=
  {| sidebar_open := true;
     backdrop_visible := true;
     aria_pressed := Some "true";
     body_overflow := "hidden" |}.

Definition closeSidebar (c : Chrome) : Chrome :=
  {| sidebar_open := false;
     backdrop_visible := false;
     aria_pressed := Some "false";
     body_overflow := "" |}.

(** The set-up of the toggle, on a page that has the sidebar and the top
    bar and no toggle yet: the toggle and the backdrop are created (no
    [aria-pressed], not visible), and the sidebar is closed on a window of
    at most 980 pixels. The class of the sidebar and the overflow of the
    body are those of the document. *)
Definition install (innerWidth : Z) (sidebar_open0 : bool) (body_overflow0 : string)
  : Chrome :=
  let c := {| sidebar_open := sidebar_open0;
              backdrop_visible := false;
              aria_pressed := None;
              body_overflow := body_overflow0 |} in
  if (innerWidth <=? 980)%Z then closeSidebar c else c.

(** The [click] listener of the toggle. *)
Definition onToggleClick (c : Chrome) : Chrome :=
  if sidebar_open c then closeSidebar c else openSidebar c.

(** The [click] listener of the backdrop. *)
Definition onBackdropClick (c : Chrome) : Chrome := closeSidebar c.

(** The [resize] listener of the window. *)
Definition onResize (innerWidth : Z) (c : Chrome) : Chrome :=
  if (980 <? innerWidth)%Z then
    {| sidebar_open := false;
       backdrop_visible := false;
       aria_pressed := aria_pressed c;
       body_overflow := "" |}
  else
    {| sidebar_open := false;
       backdrop_visible := false;
       aria_pressed := aria_pressed c;
       body_overflow := body_overflow c |}.

(** ** The quick-action buttons *)

(** [input.focus()]: a disabled field does not take the focus. *)
Definition focus (st : Page) : Page :=
  if input_disabled st then st else set_input_focused true st.

(** [a || b || ''] on strings. *)
Definition first_truthy (a b : string) : string :=
  if truthy_string a then a else if truthy_string b then b else "".

(** The [click] listener of a quick-action button whose [textContent] and
    [innerText] are given, on a window [innerWidth] pixels wide. The
    boolean tells whether the call of [sendMessage] was scheduled
    ([sendMessage] is the function the script itself defines). *)
Definition onQuickAction (textContent innerText : string) (innerWidth : Z)
  (ui : Page * Chrome) : Page * Chrome * bool :=
  let q := trim (first_truthy textContent innerText) in
  if negb (truthy_string q) then (ui, false) else
  let st := set_input_value q (fst ui) in
  let st := focus st in
  let c := snd ui in
  let c :=
    if (innerWidth <=? 980)%Z then
      {| sidebar_open := false;
         backdrop_visible := false;
         aria_pressed := aria_pressed c;
         body_overflow := "" |}
    else c in
  (st, c, true).

Section Listeners.

Variable network : nat -> string -> Options -> FetchOutcome.

(** The [keypress] listener of the input field. *)
Definition onKeypress (key : string) (st : Page) : Page :=
  if String.eqb key "Enter" && negb (send_disabled st)
  then sendMessage network st
  else st.

(** A quick action from the click to the end of the [sendMessage] that
    its timer starts 140 ms later, nothing else happening in between. *)
Definition quick_action (textContent innerText : string) (innerWidth : Z)
  (ui : Page * Chrome) : Page * Chrome :=
  match onQuickAction textContent innerText innerWidth ui with
  | (st, c, true) => (sendMessage network st, c)
  | (st, c, false) => (st, c)
  end.

(** What can happen on the page, one event at a time. *)
Inductive UiEvent :=
| Edit (v : string)
| Keypress (key : string)
| ToggleClick
| BackdropClick
| Resize (innerWidth : Z)
| QuickAction (textContent innerText : string) (innerWidth : Z).

Definition handle (ev : UiEvent) (ui : Page * Chrome) : Page * Chrome :=
  match ev with
  | Edit v => (edit v (fst ui), snd ui)
  | Keypress key => (onKeypress key (fst ui), snd ui)
  | ToggleClick => (fst ui, onToggleClick (snd ui))
  | BackdropClick => (fst ui, onBackdropClick (snd ui))
  | Resize w => (fst ui, onResize w (snd ui))
  | QuickAction textContent innerText w => quick_action textContent innerText w ui
  end.

Fixpoint handle_all (evs : list UiEvent) (ui : Page * Chrome) : Page * Chrome :=
  match evs with
  | [] => ui
  | ev :: rest => handle_all rest (handle ev ui)
  end.

End Listeners.

(** ** Vocabulary of the statements *)

(** A user turn whose text is trimmed and not empty. *)
Definition is_query_turn (t : Turn) : Prop :=
  exists q, t = user_turn q /\ trim q = q /\ q <> "".

(** The four parts of the sidebar's state agree: all open or all closed. *)
Definition settled (c : Chrome) : Prop :=
  c = openSidebar c \/ c = closeSidebar c.

(** The markup holds a line feed. *)
Fixpoint has_line_feed (s : string) : bool :=
  match s with
  | EmptyString => false
  | String c s' => (nat_of_ascii c =? 10)%nat || has_line_feed s'
  end.

(** The events at which the page may send requests. *)
Definition may_send (ev : UiEvent) : bool :=
  match ev with
  | Keypress _ | QuickAction _ _ _ => true
  | _ => false
  end.

Definition sample_chrome : Chrome :=
  {| sidebar_open := true; backdrop_visible := true;
     aria_pressed := Some "true"; body_overflow := "hidden" |}.

End Events.

(** * The client in front of the proxy *)

Module Wire.
Import Client.

(** ** What the client writes and the proxy reads *)

Definition part_json (p : Part) : Server.Json :=
  Server.JObj [("text", Server.JStr (text p))].

Definition turn_json (t : Turn) : Server.Json :=
  Server.JObj [("role", Server.JStr (role t));
               ("parts", Server.JArr (map part_json (parts t)))].

(** The text [JSON.stringify({ chatHistory: h })], sent with the content
    type [application/json], as [express.json()] parses it into [req.body]. *)
Definition body_json (h : list Turn) : Server.Json :=
  Server.JObj [("chatHistory", Server.JArr (map turn_json h))].

(** The part of an absolute URL after [scheme://]. *)
Fixpoint after_scheme (url : string) : string :=
  match url with
  | EmptyString => EmptyString
  | String ":" (String "/" (String "/" rest)) => rest
  | String _ rest => after_scheme rest
  end.

(** The part of [host:port/path] from the first slash on; [/] when there is
    none. *)
Fixpoint from_slash (s : string) : string :=
  match s with
  | EmptyString => "/"
  | String "/" _ => s
  | String _ rest => from_slash rest
  end.

(** The path of a URL that has neither query nor fragment. *)
Definition url_path (url : string) : string := from_slash (after_scheme url).

(** ** What the proxy writes and the client reads *)

(** A source object of the proxy and the source the client parses from it. *)
Definition same_source (s : Server.Source) (c : Source) : Prop :=
  Server.uri s = Some (uri c) /\ Server.title s = Some (title c).

(** The response [r] of the proxy as the outcome [o] of [fetch]: the
    status is [r]'s, and the body of a chat response parses to its text and
    sources. *)
Definition carried (r : Server.HttpResponse) (o : FetchOutcome) : Prop :=
  exists response,
    o = Resolves response /\
    status response = Server.status r /\
    forall t srcs,
      Server.body r = Server.ChatBody t srcs ->
      exists sources,
        json response = Parses (mkReply t sources) /\
        Forall2 same_source srcs sources.

(** The network is the proxy: the [n]-th request of the page, when it is
    one that [sendMessage] makes, is answered by the chat route run with the
    provider of that moment. *)
Definition proxied
  (provider : nat -> Server.GenerateContentParameters
              -> Completion Server.Upstream.GenerateContentResponse)
  (network : nat -> string -> Options -> FetchOutcome) : Prop :=
  forall n h r,
    Server.outcome (Server.app (provider n) Server.POST (url_path CHAT_API_ENDPOINT)
                      (body_json h)) = Server.Responded r ->
    carried r (network n CHAT_API_ENDPOINT (request_options h)).

(** The provider call that the proxy makes for the history [h]. *)
Definition params_for (h : list Turn) : Server.GenerateContentParameters :=
  Server.chat_params (Some (Server.JArr (map turn_json h))).

(** The text the proxy answers with for a provider answer. *)
Definition proxy_text (response : Server.Upstream.GenerateContentResponse) : string :=
  if Server.text_present response
  then default Server.PLACEHOLDER_TEXT (Server.first_text response)
  else Server.PLACEHOLDER_TEXT.

(** ** A sample proxy *)

Definition source_of (s : Server.Source) : Source :=
  {| uri := default "" (Server.uri s); title := default "" (Server.title s) |}.

(** A network that is the proxy in front of [provider]; a request that
    the chat route does not answer is rejected. *)
Definition proxy_network
  (provider : nat -> Server.GenerateContentParameters
              -> Completion Server.Upstream.GenerateContentResponse)
  : nat -> string -> Options -> FetchOutcome :=
  fun n url options =>
    match Server.outcome (Server.app (provider n) Server.POST (url_path url)
                            (body_json (body options))) with
    | Server.Responded r =>
        Resolves
          {| status := Server.status r;
             json := match Server.body r with
                     | Server.ChatBody t srcs => Parses (mkReply t (map source_of srcs))
                     | Server.ErrorBody e => ParseFails (Error e)
                     end |}
    | _ => Rejects (TypeError "Failed to fetch")
    end.

Definition provider_up
  : nat -> Server.GenerateContentParameters
    -> Completion Server.Upstream.GenerateContentResponse :=
  fun _ => Server.answers Server.grounded_answer.

Definition provider_down
  : nat -> Server.GenerateContentParameters
    -> Completion Server.Upstream.GenerateContentResponse :=
  fun _ => Server.throws (Error "503 overloaded").

End Wire.

(** * The page while sends overlap *)

(** [sendMessage] is an [async] function: it runs up to the call of
    [fetchWithRetry], and its remainder runs when that call settles.
    Between the two the page handles other events, and nothing in
    [sendMessage] itself waits for an earlier call to finish. *)

Module Async.
Import Client Events.

(** ** The two halves of [sendMessage] *)

(** Lines 64-88: from the call to the request. The result is the page and,
    unless the function returned at the test of the trimmed input, the
    options of the request, whose body is the history serialised at that
    moment. *)
Definition sendMessage_begin (st : Page) : Page * option Options :=
  let userQuery := trim (input_value st) in
  if negb (truthy_string userQuery) then (st, None) else
  (* 1. Update UI and disable input *)
  let st := displayMessage userQuery true [] st in
  let st := set_input_value "" st in
  let st := set_input_disabled true st in
  let st := set_send_disabled true st in
  let st := set_send_text_hidden true st in
  let st := set_spinner_hidden false st in
  (* 2. Add user message to history *)
  let st := set_chatHistory (chatHistory st ++ [user_turn userQuery]) st in
  (st, Some (request_options (chatHistory st))).

(** Lines 90-109: from the settling of [fetchWithRetry] with [result] to
    the end, on the page as it is at that moment. *)
Definition sendMessage_resume (result : Completion Reply) (st : Page) : Page :=
  let st :=
    match result with
    | inr (mkReply botText sources) =>
        (* 4. Add bot message to history *)
        let st := set_chatHistory (chatHistory st ++ [model_turn botText]) st in
        (* 5. Display the bot's response *)
        displayMessage botText false sources st
    | inl error =>
        (* catch *)
        let st := set_console (console st ++ [error]) st in
        displayMessage FALLBACK_MESSAGE false [] st
    end in
  (* finally: 6. Restore UI state *)
  let st := set_input_disabled false st in
  let st := set_send_disabled false st in
  let st := set_send_text_hidden false st in
  let st := set_spinner_hidden true st in
  set_input_focused true st.

(** ** The input field *)

(** The field [user-input] is taken to be a single-line text input: a
    value given to it loses its line feeds and carriage returns. *)
Fixpoint strip_line_breaks (s : string) : string :=
  match s with
  | EmptyString => EmptyString
  | String c s' =>
      if ((nat_of_ascii c =? 10) || (nat_of_ascii c =? 13))%nat
      then strip_line_breaks s'
      else String c (strip_line_breaks s')
  end.

(** [input.value = v]. *)
Definition assign_value (v : string) (st : Page) : Page :=
  set_input_value (strip_line_breaks v) st.

(** ** The page and what is pending *)

(** The page, the sidebar, the number of quick-action timers that have
    not fired yet, and the requests of the calls of [sendMessage] that
    have not settled yet, oldest first. The requests and waits of
    overlapping retry chains interleave; they are not added to the trace of
    the page here, where only the result of each chain matters. *)
Record Site := {
  page : Page;
  chrome : Chrome;
  timers : nat;
  in_flight : list Options
}.

Definition with_page (st : Page) (s : Site) : Site :=
  {| page := st; chrome := chrome s; timers := timers s; in_flight := in_flight s |}.

Definition with_chrome (c : Chrome) (s : Site) : Site :=
  {| page := page s; chrome := c; timers := timers s; in_flight := in_flight s |}.

(** What happens on the page, one thing at a time. [Settled k result]: the
    retry chain of the [k]-th pending call settles with [result], whatever
    requests and waits it took. *)
Inductive Happening :=
| Edited (v : string)
| KeyPressed (key : string)
| QuickActionClicked (textContent innerText : string) (innerWidth : Z)
| TimerFired
| Settled (k : nat) (result : Completion Reply)
| ToggleClicked
| BackdropClicked
| Resized (innerWidth : Z).

(** A call of [sendMessage()]: its first half runs, and its request, if
    any, is pending from then on. *)
Definition call_sendMessage (s : Site) : Site :=
  match sendMessage_begin (page s) with
  | (st, Some options) =>
      {| page := st; chrome := chrome s; timers := timers s;
         in_flight := in_flight s ++ [options] |}
  | (st, None) => with_page st s
  end.

(** The click listener of a quick-action button, lines 201-234: the label
    is written to the field, the call of [sendMessage] is left to a timer,
    and the sidebar is closed on a narrow window. No control is tested. *)
Definition click_quick_action (textContent innerText : string) (innerWidth : Z)
  (s : Site) : Site :=
  let q := trim (first_truthy textContent innerText) in
  if negb (truthy_string q) then s else
  let st := assign_value q (page s) in
  let st := focus st in
  let c := chrome s in
  let c :=
    if (innerWidth <=? 980)%Z then
      {| sidebar_open := false;
         backdrop_visible := false;
         aria_pressed := aria_pressed c;
         body_overflow := "" |}
    else c in
  {| page := st; chrome := c; timers := S (timers s); in_flight := in_flight s |}.

Definition happen (ev : Happening) (s : Site) : Site :=
  match ev with
  | Edited v => with_page (onInput (assign_value v (page s))) s
  | KeyPressed key =>
      if String.eqb key "Enter" && negb (send_disabled (page s))
      then call_sendMessage s
      else s
  | QuickActionClicked textContent innerText w =>
      click_quick_action textContent innerText w s
  | TimerFired =>
      match timers s with
      | O => s
      | S n =>
          call_sendMessage
            {| page := page s; chrome := chrome s; timers := n;
               in_flight := in_flight s |}
      end
  | Settled k result =>
      match in_flight s !! k with
      | None => s
      | Some _ =>
          {| page := sendMessage_resume result (page s); chrome := chrome s;
             timers := timers s; in_flight := delete k (in_flight s) |}
      end
  | ToggleClicked => with_chrome (onToggleClick (chrome s)) s
  | BackdropClicked => with_chrome (onBackdropClick (chrome s)) s
  | Resized w => with_chrome (onResize w (chrome s)) s
  end.

Fixpoint happen_all (evs : list Happening) (s : Site) : Site :=
  match evs with
  | [] => s
  | ev :: rest => happen_all rest (happen ev s)
  end.

(** The page as loaded, the sidebar as set up on a wide window, nothing
    pending. *)
Definition initial_site : Site :=
  {| page := initial_page; chrome := install 1200 false "";
     timers := 0; in_flight := [] |}.

(** ** Vocabulary of the statements *)

(** Reading the history from its start with [n] user turns not answered
    yet: a user turn adds one, a model turn answers one and needs one to
    answer. [None] when a model turn finds none, or a turn has another
    role. *)
Fixpoint unanswered_from (n : nat) (h : list Turn) : option nat :=
  match h with
  | [] => Some n
  | t :: rest =>
      if String.eqb (role t) "user" then unanswered_from (S n) rest
      else if String.eqb (role t) "model" then
        match n with
        | O => None
        | S m => unanswered_from m rest
        end
      else None
  end.

(** The number of user turns without an answer, when every model turn of
    the history has a user turn of its own somewhere before it. *)
Definition unanswered (h : list Turn) : option nat := unanswered_from 0 h.

(** A turn the page can have pushed: the user turn of a query, or a turn
    with the role of the model. *)
Definition is_page_turn (t : Turn) : Prop :=
  is_query_turn t \/ role t = "model".

(** What every step keeps: each model turn has a user turn of its own
    before it, at least as many user turns are unanswered as calls are
    pending, and every turn is one the page pushes. *)
Definition keeps (s : Site) : Prop :=
  exists n,
    unanswered (chatHistory (page s)) = Some n /\
    (length (in_flight s) <= n)%nat /\
    Forall is_page_turn (chatHistory (page s)).

(** The string holds a line feed or a carriage return. *)
Fixpoint has_line_break (s : string) : bool :=
  match s with
  | EmptyString => false
  | String c s' =>
      ((nat_of_ascii c =? 10) || (nat_of_ascii c =? 13))%nat || has_line_break s'
  end.

(** ** Markup, in the words of its description *)

(** The pieces of a text between its line feeds. *)
Fixpoint split_at_line_feeds (s : string) : list string :=
  match s with
  | EmptyString => [EmptyString]
  | String c s' =>
      if (nat_of_ascii c =? 10)%nat then EmptyString :: split_at_line_feeds s'
      else match split_at_line_feeds s' with
           | [] => [String c EmptyString]
           | piece :: pieces => String c piece :: pieces
           end
  end.

Definition line_feed : string := String (ascii_of_nat 10) EmptyString.

(** One anchor for each source, numbered from [n] on. *)
Fixpoint numbered_links (n : nat) (sources : list Source) : string :=
  match sources with
  | [] => EmptyString
  | s :: rest =>
      "<a href=" ++ dq ++ uri s ++ dq ++ " target=" ++ dq ++ "_blank" ++ dq
      ++ " class=" ++ dq ++ "hover:underline text-emerald-600 block" ++ dq
      ++ " title=" ++ dq ++ title s ++ dq ++ ">Source " ++ pretty n
      ++ ": " ++ title s ++ "</a>" ++ numbered_links (S n) rest
  end.

(** ** Sample replies *)

Definition breakfast_reply : Reply := mkReply "Try oats with berries." [].

Definition lunch_reply : Reply := mkReply "Try a lentil salad." [].

End Async.

(** * Strings as conditions *)

Lemma truthy_string_false s : truthy_string s = false <-> s = "".
Proof. destruct s; cbn; split; (reflexivity || discriminate). Qed.

Lemma truthy_string_true s : truthy_string s = true <-> s <> "".
Proof. destruct s; cbn; split; (congruence || discriminate). Qed.

(** * Properties of the client *)

Module ClientSpec.
Import Client.

Section Retry.

Variable network : nat -> string -> Options -> FetchOutcome.

Lemma fetches_app tr1 tr2 : fetches (tr1 ++ tr2) = (fetches tr1 + fetches tr2)%nat.
Proof. unfold fetches. now rewrite List.filter_app, length_app. Qed.

Lemma fetches_fetched tr url options :
  fetches (tr ++ [Fetched url options]) = S (fetches tr).
Proof. rewrite fetches_app. cbn. lia. Qed.

Lemma fetches_sleep ms tr : fetches (sleep ms tr) = fetches tr.
Proof. unfold sleep. rewrite fetches_app. cbn. lia. Qed.

Lemma attempt_trace url options tr :
  snd (attempt network url options tr) = tr ++ [Fetched url options].
Proof.
  unfold attempt. destruct (network _ _ _) as [e | r]; [reflexivity |].
  destruct (negb (ok r)); [reflexivity |]. now destruct (json r).
Qed.

(** The body of [fetchWithRetry], as one equation. *)
Lemma fetchWithRetry_body url options retries tr :
  fetchWithRetry network url options retries tr =
  match attempt network url options tr with
  | (inr v, tr1) => (inr v, tr1)
  | (inl error, tr1) =>
      if (retries <? MAX_RETRIES)%nat
      then fetchWithRetry network url options (S retries) (sleep (backoff retries) tr1)
      else (inl error, tr1)
  end.
Proof.
  simp fetchWithRetry.
  destruct (attempt network url options tr) as [[error | v] tr1]; [| reflexivity].
  destruct (Nat.ltb_spec retries MAX_RETRIES); cbn;
    destruct (lt_dec retries MAX_RETRIES) as [Hlt | Hge];
    cbn; (reflexivity || (unfold MAX_RETRIES in *; lia)).
Qed.

(** A failed attempt is retried after the back-off while the counter is
    below [MAX_RETRIES]; at [MAX_RETRIES] its error is thrown. *)
Lemma fetchWithRetry_failed_attempt url options retries tr error tr1 :
  attempt network url options tr = (inl error, tr1) ->
  fetchWithRetry network url options retries tr =
  if (retries <? MAX_RETRIES)%nat
  then fetchWithRetry network url options (S retries) (sleep (backoff retries) tr1)
  else (inl error, tr1).
Proof. intros H. rewrite fetchWithRetry_body, H. reflexivity. Qed.

Lemma fetchWithRetry_success url options retries tr v tr1 :
  attempt network url options tr = (inr v, tr1) ->
  fetchWithRetry network url options retries tr = (inr v, tr1).
Proof. intros H. rewrite fetchWithRetry_body, H. reflexivity. Qed.

Lemma attempt_fails_in_transit url options tr :
  fails_in_transit (network (fetches tr) url options) = true ->
  attempt network url options tr =
  (inl (transit_error (network (fetches tr) url options)), tr ++ [Fetched url options]).
Proof.
  unfold attempt, fails_in_transit, transit_error.
  destruct (network _ _ _) as [e | r]; [reflexivity |].
  intros ->. reflexivity.
Qed.

Lemma fetches_failing_chain url options retries budget :
  fetches (failing_chain url options retries budget) = S budget.
Proof.
  revert retries. induction budget as [| b IH]; intros retries; [reflexivity |].
  change (failing_chain url options retries (S b))
    with ([Fetched url options; Slept (backoff retries)]
            ++ failing_chain url options (S retries) b).
  rewrite fetches_app, IH. reflexivity.
Qed.

Lemma fetchWithRetry_exhausts url options budget :
  forall retries tr,
    (retries + budget = MAX_RETRIES)%nat ->
    (forall k, (k <= budget)%nat ->
       fails_in_transit (network (fetches tr + k) url options) = true) ->
    fetchWithRetry network url options retries tr =
    (inl (transit_error (network (fetches tr + budget) url options)),
     tr ++ failing_chain url options retries budget).
Proof.
  induction budget as [| b IH]; intros retries tr Hsum Hfail.
  - pose proof (Hfail 0%nat (Nat.le_refl _)) as H0. rewrite Nat.add_0_r in *.
    rewrite (fetchWithRetry_failed_attempt _ _ _ _ _ _ (attempt_fails_in_transit _ _ _ H0)).
    destruct (Nat.ltb_spec retries MAX_RETRIES); [lia | reflexivity].
  - pose proof (Hfail 0%nat (Nat.le_0_l _)) as H0. rewrite Nat.add_0_r in H0.
    rewrite (fetchWithRetry_failed_attempt _ _ _ _ _ _ (attempt_fails_in_transit _ _ _ H0)).
    destruct (Nat.ltb_spec retries MAX_RETRIES); [| lia].
    rewrite IH.
    + rewrite fetches_sleep, fetches_fetched. unfold sleep.
      rewrite <- !app_assoc. cbn [app failing_chain].
      now replace (S (fetches tr) + b)%nat with (fetches tr + S b)%nat by lia.
    + lia.
    + intros k Hk. rewrite fetches_sleep, fetches_fetched.
      replace (S (fetches tr) + k)%nat with (fetches tr + S k)%nat by lia.
      apply Hfail. lia.
Qed.

Lemma sent_histories_app tr1 tr2 :
  sent_histories (tr1 ++ tr2) = sent_histories tr1 ++ sent_histories tr2.
Proof. unfold sent_histories. apply flat_map_app. Qed.

(** Every request of a retry chain carries the same body, and there is at
    least one. *)
Lemma fetchWithRetry_requests url options budget : forall retries tr,
  (MAX_RETRIES - retries <= budget)%nat ->
  exists n,
    sent_histories (snd (fetchWithRetry network url options retries tr))
      = sent_histories tr ++ replicate (S n) (body options).
Proof.
  induction budget as [| b IH]; intros retries tr Hb;
    rewrite fetchWithRetry_body;
    pose proof (attempt_trace url options tr) as Htr;
    destruct (attempt network url options tr) as [[error | v] tr1];
    cbn [snd] in Htr; subst tr1;
    try (exists 0%nat; cbn [snd]; rewrite sent_histories_app; reflexivity).
  - destruct (Nat.ltb_spec retries MAX_RETRIES); [lia |].
    exists 0%nat. cbn [snd]. rewrite sent_histories_app. reflexivity.
  - destruct (Nat.ltb_spec retries MAX_RETRIES).
    + destruct (IH (S retries) (sleep (backoff retries) (tr ++ [Fetched url options])))
        as [n Hn]; [lia |].
      exists (S n). rewrite Hn. unfold sleep.
      rewrite !sent_histories_app, <- !app_assoc. reflexivity.
    + exists 0%nat. cbn [snd]. rewrite sent_histories_app. reflexivity.
Qed.

Lemma delays_app tr1 tr2 : delays (tr1 ++ tr2) = delays tr1 ++ delays tr2.
Proof. unfold delays. apply flat_map_app. Qed.

Lemma total_delay_app tr1 tr2 :
  total_delay (tr1 ++ tr2) = (total_delay tr1 + total_delay tr2)%Z.
Proof.
  unfold total_delay. rewrite delays_app.
  induction (delays tr1) as [| d ds IH]; cbn [app fold_right]; lia.
Qed.

(** C2. When every attempt of a call fails in transit (the request is
    rejected or answered with a status outside 200-299), the wrapper makes
    exactly 6 requests, waits 1000, 2000, 4000, 8000 and 16000 ms (31 s in
    all, each wait exactly [2^k] s) between them, and then throws the error
    of the 6th attempt. *)
Theorem fetchWithRetry_all_attempts_fail url options tr :
  (forall k, (k <= MAX_RETRIES)%nat ->
     fails_in_transit (network (fetches tr + k) url options) = true) ->
  let run := fetchWithRetry network url options 0 tr in
  fst run = inl (transit_error (network (fetches tr + 5) url options)) /\
  snd run = tr ++ [Fetched url options; Slept 1000;
                   Fetched url options; Slept 2000;
                   Fetched url options; Slept 4000;
                   Fetched url options; Slept 8000;
                   Fetched url options; Slept 16000;
                   Fetched url options] /\
  fetches (snd run) = (fetches tr + 6)%nat /\
  delays (snd run) = delays tr ++ [1000; 2000; 4000; 8000; 16000]%Z /\
  total_delay (snd run) = (total_delay tr + 31000)%Z.
Proof.
  intros Hfail run. subst run.
  rewrite (fetchWithRetry_exhausts url options 5 0 tr eq_refl Hfail).
  cbn [fst snd].
  change (failing_chain url options 0 5)
    with [Fetched url options; Slept 1000;
          Fetched url options; Slept 2000;
          Fetched url options; Slept 4000;
          Fetched url options; Slept 8000;
          Fetched url options; Slept 16000;
          Fetched url options].
  repeat split.
  - rewrite fetches_app. reflexivity.
  - rewrite delays_app. reflexivity.
  - rewrite total_delay_app. reflexivity.
Qed.

(** C3, as the code has it. A success-status response whose body does not
    parse is handled like any other failed attempt: while the counter is
    below [MAX_RETRIES] the wrapper waits [2^retries] s and tries again, and
    only at [MAX_RETRIES] is the parse error thrown to the caller. *)
Theorem parse_failure_is_retried url options retries tr r e :
  network (fetches tr) url options = Resolves r ->
  ok r = true ->
  json r = ParseFails e ->
  fetchWithRetry network url options retries tr =
  if (retries <? MAX_RETRIES)%nat
  then fetchWithRetry network url options (S retries)
         (tr ++ [Fetched url options; Slept (backoff retries)])
  else (inl e, tr ++ [Fetched url options]).
Proof.
  intros Hnet Hok Hjson.
  assert (attempt network url options tr = (inl e, tr ++ [Fetched url options])) as Ha.
  { unfold attempt. rewrite Hnet, Hok, Hjson. reflexivity. }
  rewrite (fetchWithRetry_failed_attempt _ _ _ _ _ _ Ha).
  unfold sleep. rewrite <- app_assoc. reflexivity.
Qed.

End Retry.

Lemma fetchWithRetry_all_attempts_fail_witness :
  fst (fetchWithRetry unreachable CHAT_API_ENDPOINT (request_options []) 0 [])
    = inl (TypeError "Failed to fetch") /\
  fetches (snd (fetchWithRetry unreachable CHAT_API_ENDPOINT (request_options []) 0 [])) = 6%nat /\
  total_delay (snd (fetchWithRetry unreachable CHAT_API_ENDPOINT (request_options []) 0 []))
    = 31000%Z.
Proof.
  destruct (fetchWithRetry_all_attempts_fail unreachable CHAT_API_ENDPOINT
              (request_options []) []) as (H1 & _ & H3 & _ & H5).
  - intros k _. reflexivity.
  - split; [exact H1 | split; [exact H3 | exact H5]].
Defined.

Lemma parse_failure_is_retried_witness :
  fetchWithRetry garbled_once CHAT_API_ENDPOINT (request_options []) 0 [] =
  fetchWithRetry garbled_once CHAT_API_ENDPOINT (request_options []) 1
    [Fetched CHAT_API_ENDPOINT (request_options []); Slept 1000].
Proof.
  exact (parse_failure_is_retried garbled_once CHAT_API_ENDPOINT (request_options []) 0 []
           _ _ eq_refl eq_refl eq_refl).
Defined.

(** C3, as stated, fails: the first response has status 200 and a body that
    does not parse, yet the caller sees no error; the wrapper waits one
    second, sends the request again and returns the second response's
    body. *)
Lemma parse_failure_not_surfaced :
  garbled_once 0 CHAT_API_ENDPOINT (request_options [])
    = Resolves {| status := 200;
                  json := ParseFails {| name := "SyntaxError";
                                        message := "Unexpected end of JSON input" |} |} /\
  fetchWithRetry garbled_once CHAT_API_ENDPOINT (request_options []) 0 [] =
    (inr sample_reply,
     [Fetched CHAT_API_ENDPOINT (request_options []); Slept 1000;
      Fetched CHAT_API_ENDPOINT (request_options [])]) /\
  ~ (exists e tr, fetchWithRetry garbled_once CHAT_API_ENDPOINT (request_options []) 0 []
                  = (inl e, tr)) /\
  fetches (snd (fetchWithRetry garbled_once CHAT_API_ENDPOINT (request_options []) 0 [])) = 2%nat.
Proof.
  assert (fetchWithRetry garbled_once CHAT_API_ENDPOINT (request_options []) 0 [] =
    (inr sample_reply,
     [Fetched CHAT_API_ENDPOINT (request_options []); Slept 1000;
      Fetched CHAT_API_ENDPOINT (request_options [])])) as E by reflexivity.
  split; [reflexivity |]. split; [exact E |]. split; [| now rewrite E].
  intros (e & tr & H). rewrite E in H. discriminate H.
Qed.

(** ** The controller *)

Lemma trimStart_empty s : trimStart s = "" <-> whitespace_only s = true.
Proof.
  induction s as [| c s IH]; cbn; [tauto |].
  destruct (is_space c); cbn; [exact IH |]. split; discriminate.
Qed.

Lemma trimEnd_empty s : trimEnd s = "" <-> whitespace_only s = true.
Proof.
  induction s as [| c s IH]; cbn; [tauto |].
  destruct (trimEnd s) as [| c' r].
  - destruct (is_space c); cbn; [tauto |]. split; discriminate.
  - rewrite andb_true_iff. split; [discriminate |].
    intros [_ H]. apply IH in H. discriminate H.
Qed.

Lemma whitespace_only_trimStart s :
  whitespace_only (trimStart s) = whitespace_only s.
Proof.
  induction s as [| c s IH]; cbn; [reflexivity |].
  destruct (is_space c) eqn:E; cbn; [exact IH |]. now rewrite E.
Qed.

(** The trimmed value is empty exactly for the empty and the
    whitespace-only strings. *)
Lemma trim_empty s : trim s = "" <-> whitespace_only s = true.
Proof. unfold trim. now rewrite trimEnd_empty, whitespace_only_trimStart. Qed.

(** Two pages with the same fields are the same page. *)
Lemma Page_eq (p q : Page) :
  chatHistory p = chatHistory q ->
  input_value p = input_value q ->
  input_disabled p = input_disabled q ->
  input_focused p = input_focused q ->
  send_disabled p = send_disabled q ->
  send_text_hidden p = send_text_hidden q ->
  spinner_hidden p = spinner_hidden q ->
  chat_window p = chat_window q ->
  console p = console q ->
  trace p = trace q ->
  p = q.
Proof. destruct p, q; cbn; intros; subst; reflexivity. Qed.

Section Controller.

Variable network : nat -> string -> Options -> FetchOutcome.

(** [sendMessage] on an input whose trimmed value is not empty, by the
    outcome of the round trip. *)
Lemma sendMessage_sent st :
  truthy_string (trim (input_value st)) = true ->
  sendMessage network st =
  match round_trip network (trim (input_value st)) st with
  | (inr (mkReply botText sources), tr) =>
      {| chatHistory := chatHistory st
                          ++ [user_turn (trim (input_value st)); model_turn botText];
         input_value := ""; input_disabled := false; input_focused := true;
         send_disabled := false; send_text_hidden := false; spinner_hidden := true;
         chat_window := chat_window st
                          ++ [messageWrapper (trim (input_value st)) true [];
                              messageWrapper botText false sources];
         console := console st; trace := tr |}
  | (inl error, tr) =>
      {| chatHistory := chatHistory st ++ [user_turn (trim (input_value st))];
         input_value := ""; input_disabled := false; input_focused := true;
         send_disabled := false; send_text_hidden := false; spinner_hidden := true;
         chat_window := chat_window st
                          ++ [messageWrapper (trim (input_value st)) true [];
                              messageWrapper FALLBACK_MESSAGE false []];
         console := console st ++ [error]; trace := tr |}
  end.
Proof.
  intros Hq. unfold sendMessage. rewrite Hq. cbn [negb].
  set (q := trim (input_value st)).
  set (rt := round_trip network q st).
  change (fetchWithRetry network CHAT_API_ENDPOINT (request_options (chatHistory _)) 0
            (trace _)) with rt.
  destruct rt as [[error | [botText sources]] tr].
  - apply Page_eq; try reflexivity.
    change ((chat_window st ++ [messageWrapper q true []])
              ++ [messageWrapper FALLBACK_MESSAGE false []]
            = chat_window st ++ [messageWrapper q true [];
                                 messageWrapper FALLBACK_MESSAGE false []]).
    now rewrite <- app_assoc.
  - apply Page_eq; try reflexivity.
    + change ((chatHistory st ++ [user_turn q]) ++ [model_turn botText]
              = chatHistory st ++ [user_turn q; model_turn botText]).
      now rewrite <- app_assoc.
    + change ((chat_window st ++ [messageWrapper q true []])
                ++ [messageWrapper botText false sources]
              = chat_window st ++ [messageWrapper q true [];
                                   messageWrapper botText false sources]).
      now rewrite <- app_assoc.
Qed.

Lemma sendMessage_blank st :
  trim (input_value st) = "" -> sendMessage network st = st.
Proof. intros H. unfold sendMessage. now rewrite H. Qed.

(** No call of [sendMessage] drops, reorders or edits a turn. *)
Lemma sendMessage_extends st :
  chatHistory st `prefix_of` chatHistory (sendMessage network st).
Proof.
  destruct (truthy_string (trim (input_value st))) eqn:Hq.
  - rewrite (sendMessage_sent st Hq).
    destruct (round_trip _ _ _) as [[error | [botText sources]] tr]; cbn;
      eexists; reflexivity.
  - apply truthy_string_false in Hq. now rewrite sendMessage_blank.
Qed.

Lemma submit_all_extends inputs : forall st,
  chatHistory st `prefix_of` chatHistory (submit_all network inputs st).
Proof.
  induction inputs as [| v rest IH]; intros st; cbn; [reflexivity |].
  etransitivity; [| apply IH]. apply (sendMessage_extends (set_input_value v st)).
Qed.

Lemma submit_all_app l1 l2 st :
  submit_all network (l1 ++ l2) st = submit_all network l2 (submit_all network l1 st).
Proof. revert st. induction l1 as [| v l1 IH]; intros st; cbn; [reflexivity | apply IH]. Qed.

Lemma submit_success v st :
  round_trip_succeeds network v st = true ->
  exists botText,
    chatHistory (submit network v st)
      = chatHistory st ++ [user_turn (trim v); model_turn botText].
Proof.
  unfold round_trip_succeeds. rewrite andb_true_iff. intros [Hq Hok].
  unfold submit. rewrite sendMessage_sent by exact Hq. cbn [input_value set_input_value].
  change (round_trip network (trim v) (set_input_value v st))
    with (round_trip network (trim v) st).
  destruct (round_trip network (trim v) st) as [[error | [botText sources]] tr];
    [discriminate Hok |].
  exists botText. reflexivity.
Qed.

Lemma submit_failure v st :
  round_trip_fails network v st = true ->
  exists error tr,
    round_trip network (trim v) st = (inl error, tr) /\
    submit network v st =
      {| chatHistory := chatHistory st ++ [user_turn (trim v)];
         input_value := ""; input_disabled := false; input_focused := true;
         send_disabled := false; send_text_hidden := false; spinner_hidden := true;
         chat_window := chat_window st
                          ++ [messageWrapper (trim v) true [];
                              messageWrapper FALLBACK_MESSAGE false []];
         console := console st ++ [error]; trace := tr |}.
Proof.
  unfold round_trip_fails. rewrite andb_true_iff. intros [Hq Hko].
  unfold submit. rewrite sendMessage_sent by exact Hq. cbn [input_value set_input_value].
  change (round_trip network (trim v) (set_input_value v st))
    with (round_trip network (trim v) st).
  destruct (round_trip network (trim v) st) as [[error | [botText sources]] tr];
    [| discriminate Hko].
  exists error, tr. split; reflexivity.
Qed.

Lemma all_succeed_history inputs : forall st,
  all_succeed network inputs st = true ->
  exists answers,
    length answers = length inputs /\
    chatHistory (submit_all network inputs st)
      = chatHistory st ++ exchanges (combine (map trim inputs) answers).
Proof.
  induction inputs as [| v rest IH]; intros st Hall; cbn in Hall |- *.
  - exists []. split; [reflexivity |]. cbn. now rewrite app_nil_r.
  - apply andb_true_iff in Hall as [Hv Hrest].
    destruct (submit_success v st Hv) as [botText Hh].
    destruct (IH _ Hrest) as (answers & Hlen & Hrec).
    exists (botText :: answers). split; [cbn; now rewrite Hlen |].
    rewrite Hrec, Hh, <- app_assoc. reflexivity.
Qed.

Lemma all_succeed_app l1 : forall l2 st,
  all_succeed network (l1 ++ l2) st
  = all_succeed network l1 st && all_succeed network l2 (submit_all network l1 st).
Proof.
  induction l1 as [| v l1 IH]; intros l2 st; cbn [app all_succeed submit_all];
    [reflexivity |].
  now rewrite IH, andb_assoc.
Qed.

(** The requests of a submission that reaches the backend all carry the
    history as it was, followed by the new user turn. *)
Lemma submit_requests v st :
  truthy_string (trim v) = true ->
  exists n,
    sent_histories (trace (submit network v st))
      = sent_histories (trace st)
          ++ replicate (S n) (chatHistory st ++ [user_turn (trim v)]).
Proof.
  intros Hq.
  destruct (fetchWithRetry_requests network CHAT_API_ENDPOINT
              (request_options (chatHistory st ++ [user_turn (trim v)]))
              MAX_RETRIES 0 (trace st)) as [n Hn]; [lia |].
  cbn [body request_options] in Hn.
  exists n. rewrite <- Hn.
  unfold submit. rewrite sendMessage_sent by exact Hq.
  cbn [input_value set_input_value].
  change (round_trip network (trim v) (set_input_value v st))
    with (round_trip network (trim v) st).
  unfold round_trip.
  destruct (fetchWithRetry _ _ _ _ _) as [[error | [botText sources]] tr]; reflexivity.
Qed.

Lemma exchanges_length l : length (exchanges l) = (2 * length l)%nat.
Proof.
  unfold exchanges.
  induction l as [| qa l IH]; cbn [flat_map app length] in *; lia.
Qed.

Lemma exchanges_roles l : map role (exchanges l) = alternating (length l).
Proof.
  unfold exchanges.
  induction l as [| qa l IH]; cbn [flat_map app length map alternating] in *;
    [reflexivity |].
  now rewrite IH.
Qed.

Lemma exchanges_lookup l : forall i q a,
  l !! i = Some (q, a) ->
  exchanges l !! (2 * i)%nat = Some (user_turn q) /\
  exchanges l !! (2 * i + 1)%nat = Some (model_turn a).
Proof.
  induction l as [| qa l IH]; intros i q a Hi; [discriminate Hi |].
  destruct i as [| i].
  - injection Hi as ->. split; reflexivity.
  - replace (2 * S i)%nat with (S (S (2 * i))) by lia.
    replace (S (S (2 * i)) + 1)%nat with (S (S (2 * i + 1))) by lia.
    exact (IH i q a Hi).
Qed.

Lemma combine_lookup (qs answers : list string) : forall i q,
  length answers = length qs ->
  qs !! i = Some q ->
  exists a, combine qs answers !! i = Some (q, a).
Proof.
  revert answers. induction qs as [| q0 qs IH]; intros answers i q Hlen Hi;
    [discriminate Hi |].
  destruct answers as [| a0 answers]; [discriminate Hlen |].
  destruct i as [| i].
  - injection Hi as ->. exists a0. reflexivity.
  - cbn in Hlen. apply (IH answers i q); [lia | exact Hi].
Qed.

Lemma alternates_alternating n : alternates (alternating n) = true.
Proof. unfold alternates. induction n as [| n IH]; cbn; [reflexivity | exact IH]. Qed.

(** While every round trip succeeds, the history after the first [k]
    submissions is the first [2k] turns of the final one. *)
Lemma history_of_prefix inputs st k :
  chatHistory st = [] ->
  all_succeed network inputs st = true ->
  (k <= length inputs)%nat ->
  chatHistory (submit_all network (take k inputs) st)
  = take (2 * k) (chatHistory (submit_all network inputs st)).
Proof.
  intros Hempty Hall Hk.
  rewrite <- (take_drop k inputs) in Hall. rewrite all_succeed_app in Hall.
  apply andb_true_iff in Hall as [Hall _].
  destruct (all_succeed_history _ _ Hall) as (answers & Hlen & Hh).
  rewrite Hempty in Hh. cbn [app] in Hh.
  assert (length (chatHistory (submit_all network (take k inputs) st)) = (2 * k)%nat) as Hl.
  { rewrite Hh, exchanges_length, length_combine, length_map, Hlen, Nat.min_id,
      length_take. lia. }
  rewrite <- (take_drop k inputs) at 2. rewrite submit_all_app.
  destruct (submit_all_extends (drop k inputs) (submit_all network (take k inputs) st))
    as [suffix ->].
  rewrite <- Hl. now rewrite take_app_length.
Qed.

(** Submissions that do not overlap, each [sendMessage] settled before the
    next starts. After [N] of them that all complete with a successful
    round trip, starting from the empty history, the history has exactly
    [2N] turns with roles user, model, user, model, ...; the turn [2i] is
    the user turn of the [i]-th input and the turn [2i+1] a model turn; the
    history after the first [k] submissions is a prefix of the final one,
    every request of the submission [k] carries exactly the first [2k+1]
    turns, and no call of [sendMessage] changes the turns already there. *)
Theorem history_after_successful_round_trips inputs st :
  chatHistory st = [] ->
  all_succeed network inputs st = true ->
  let h := chatHistory (submit_all network inputs st) in
  length h = (2 * length inputs)%nat /\
  map role h = alternating (length inputs) /\
  alternates (map role h) = true /\
  (forall i v, inputs !! i = Some v ->
     h !! (2 * i)%nat = Some (user_turn (trim v)) /\
     exists botText, h !! (2 * i + 1)%nat = Some (model_turn botText)) /\
  (forall k, chatHistory (submit_all network (take k inputs) st) `prefix_of` h) /\
  (forall k v, inputs !! k = Some v ->
     exists n,
       sent_histories (trace (submit_all network (take (S k) inputs) st))
       = sent_histories (trace (submit_all network (take k inputs) st))
           ++ replicate (S n) (take (2 * k + 1) h)) /\
  (forall page, chatHistory page `prefix_of` chatHistory (sendMessage network page)).
Proof.
  intros Hempty Hall h.
  destruct (all_succeed_history inputs st Hall) as (answers & Hlen & Hh).
  rewrite Hempty in Hh. cbn [app] in Hh. fold h in Hh.
  assert (length (combine (map trim inputs) answers) = length inputs) as Hc.
  { rewrite length_combine, length_map, Hlen. apply Nat.min_id. }
  assert (map role h = alternating (length inputs)) as Hroles.
  { rewrite Hh, exchanges_roles, Hc. reflexivity. }
  split; [rewrite Hh, exchanges_length, Hc; reflexivity |].
  split; [exact Hroles |].
  split; [rewrite Hroles; apply alternates_alternating |].
  assert (forall i v, inputs !! i = Some v ->
            h !! (2 * i)%nat = Some (user_turn (trim v)) /\
            exists botText, h !! (2 * i + 1)%nat = Some (model_turn botText)) as Hturns.
  { intros i v Hi.
    destruct (combine_lookup (map trim inputs) answers i (trim v)) as [a Ha].
    - now rewrite length_map.
    - rewrite list_lookup_fmap, Hi. reflexivity.
    - destruct (exchanges_lookup _ _ _ _ Ha) as [Hu Hm].
      rewrite Hh. split; [exact Hu | exists a; exact Hm]. }
  split; [exact Hturns |]. split; [| split].
  - intros k. subst h.
    rewrite <- (take_drop k inputs) at 2. rewrite submit_all_app.
    apply submit_all_extends.
  - intros k v Hk.
    assert (round_trip_succeeds network v (submit_all network (take k inputs) st) = true)
      as Hv.
    { pose proof Hall as Hall'.
      rewrite <- (take_drop_middle inputs k v Hk), all_succeed_app in Hall'.
      apply andb_true_iff in Hall' as [_ Hrest]. cbn [all_succeed] in Hrest.
      now apply andb_true_iff in Hrest as [Hv _]. }
    assert (truthy_string (trim v) = true) as Hq.
    { unfold round_trip_succeeds in Hv. now apply andb_true_iff in Hv as [Hq _]. }
    destruct (submit_requests v (submit_all network (take k inputs) st) Hq) as [n Hn].
    exists n.
    rewrite (take_S_r inputs k v Hk), submit_all_app. cbn [submit_all]. rewrite Hn.
    rewrite (history_of_prefix inputs st k Hempty Hall)
      by (apply Nat.lt_le_incl, (lookup_lt_Some inputs k v Hk)).
    fold h. replace (2 * k + 1)%nat with (S (2 * k)) by lia.
    now rewrite (take_S_r h (2 * k) _ (proj1 (Hturns k v Hk))).
  - apply sendMessage_extends.
Qed.

(** C5, as the code has it. When the round trip of a submission fails for
    good, the fallback message is displayed after the user's message, no
    model turn is appended and the history is the previous one followed by
    the user turn. That turn stays: the next successful submission appends
    its own user turn and the model turn after it, so that two user turns
    then follow each other. *)
Theorem terminal_failure_keeps_user_turn v st :
  round_trip_fails network v st = true ->
  let st1 := submit network v st in
  chatHistory st1 = chatHistory st ++ [user_turn (trim v)] /\
  chat_window st1 = chat_window st ++ [messageWrapper (trim v) true [];
                                       messageWrapper FALLBACK_MESSAGE false []] /\
  (forall v2, round_trip_succeeds network v2 st1 = true ->
     exists botText,
       chatHistory (submit network v2 st1)
         = chatHistory st ++ [user_turn (trim v); user_turn (trim v2); model_turn botText]).
Proof.
  intros Hfail st1.
  destruct (submit_failure v st Hfail) as (error & tr & _ & Hst1).
  fold st1 in Hst1.
  split; [now rewrite Hst1 |]. split; [now rewrite Hst1 |].
  intros v2 Hok. destruct (submit_success v2 st1 Hok) as [botText Hh].
  exists botText. rewrite Hh, Hst1. cbn [chatHistory].
  rewrite <- app_assoc. reflexivity.
Qed.

(** C6. When the trimmed input is empty (the input is empty or holds only
    white space), [sendMessage] returns at once: the page, its history
    included, is as before and no request is sent. *)
Theorem blank_input_is_a_no_op st :
  trim (input_value st) = "" ->
  sendMessage network st = st /\
  chatHistory (sendMessage network st) = chatHistory st /\
  trace (sendMessage network st) = trace st /\
  fetches (trace (sendMessage network st)) = fetches (trace st).
Proof. intros H. rewrite (sendMessage_blank st H). repeat split. Qed.

End Controller.

Lemma history_after_successful_round_trips_witness :
  length (chatHistory (submit_all healthy ["Breakfast ideas?"; "  And lunch? "] initial_page))
    = 4%nat /\
  map role (chatHistory (submit_all healthy ["Breakfast ideas?"; "  And lunch? "] initial_page))
    = ["user"; "model"; "user"; "model"].
Proof.
  destruct (history_after_successful_round_trips healthy
              ["Breakfast ideas?"; "  And lunch? "] initial_page eq_refl eq_refl)
    as (Hlen & Hroles & _).
  split; [exact Hlen | exact Hroles].
Defined.

Lemma terminal_failure_keeps_user_turn_witness :
  chatHistory (submit unreachable "Hello" initial_page) = [user_turn "Hello"] /\
  chat_window (submit unreachable "Hello" initial_page)
    = [messageWrapper "Hello" true []; messageWrapper FALLBACK_MESSAGE false []].
Proof.
  destruct (terminal_failure_keeps_user_turn unreachable "Hello" initial_page eq_refl)
    as (Hh & Hw & _).
  split; [exact Hh | exact Hw].
Defined.

Lemma blank_input_is_a_no_op_witness :
  sendMessage healthy (typed "   ") = typed "   ".
Proof.
  exact (proj1 (blank_input_is_a_no_op healthy (typed "   ") eq_refl)).
Defined.

(** C5, as stated, fails in its last part: the first submission fails for
    good (six responses with status 503), the second one succeeds, and the
    history then holds the roles user, user, model, which do not
    alternate. *)
Lemma dangling_turn_breaks_alternation :
  round_trip_fails (down_for 6) "Hello" initial_page = true /\
  round_trip_succeeds (down_for 6) "Hello again"
    (submit (down_for 6) "Hello" initial_page) = true /\
  map role (chatHistory (submit_all (down_for 6) ["Hello"; "Hello again"] initial_page))
    = ["user"; "user"; "model"] /\
  alternates
    (map role (chatHistory (submit_all (down_for 6) ["Hello"; "Hello again"] initial_page)))
    = false.
Proof. repeat split; vm_compute; reflexivity. Qed.

End ClientSpec.

(** * Properties of the proxy *)

Module ServerSpec.
Import Server.

Lemma isArray_truthy v : isArray v = true -> truthy v = true.
Proof. destruct v as [[| | | | |] |]; cbn; congruence. Qed.

(** The code's map-then-filter keeps what the specification calls the
    complete attributions. *)
Lemma filter_map_complete l :
  List.filter has_uri_and_title (map to_source l) = complete_attributions l.
Proof.
  unfold complete_attributions.
  induction l as [| a l IH]; [reflexivity |].
  cbn [map List.filter omap list_omap]. rewrite IH.
  unfold has_uri_and_title, to_source, complete, truthy_opt_string; cbn.
  destruct (Upstream.web a) as [[[u |] [t |]] |]; cbn; try reflexivity.
  - destruct (truthy_string u), (truthy_string t); reflexivity.
  - now rewrite andb_false_r.
Qed.

Lemma complete_well_formed a s : complete a = Some s -> well_formed s.
Proof.
  unfold complete.
  destruct (Upstream.web a) as [[[u |] [t |]] |];
    cbn [Upstream.uri Upstream.title]; try discriminate.
  destruct (truthy_string u) eqn:Hu, (truthy_string t) eqn:Ht;
    cbn [andb]; try discriminate.
  intros H. injection H as Hs. subst s. exists u, t. cbn [uri title].
  split; [reflexivity |]. split; [reflexivity |].
  split; intros ->; discriminate.
Qed.

(** The success response in terms of the provider's answer. *)
Lemma normalize_spec response :
  normalize response =
  res_json
    (if text_present response
     then ChatBody (default PLACEHOLDER_TEXT (first_text response))
            (match attributions_of response with
             | Some l => complete_attributions l
             | None => []
             end)
     else ChatBody PLACEHOLDER_TEXT []).
Proof.
  unfold normalize, text_present, attributions_of, first_text, truthy_opt_string.
  destruct (first (Upstream.candidates response)) as [candidate |]; [| reflexivity].
  destruct (first_part_text candidate) as [t |]; [| reflexivity].
  destruct (truthy_string t); [| reflexivity]. cbn [default].
  destruct (Upstream.groundingMetadata candidate) as [gm |]; [| reflexivity].
  destruct (Upstream.groundingAttributions gm) as [l |]; [| reflexivity].
  now rewrite filter_map_complete.
Qed.

(** The handler on a request that passes the check of [chatHistory]. *)
Lemma chat_handler_valid generateContent req_body :
  isArray (prop req_body "chatHistory") = true ->
  chat_handler generateContent req_body =
  let params := chat_params (prop req_body "chatHistory") in
  match generateContent params with
  | inr response =>
      {| outcome := Responded (normalize response);
         upstream_calls := [params]; console := [] |}
  | inl error =>
      {| outcome := Responded UPSTREAM_FAILURE;
         upstream_calls := [params]; console := [error] |}
  end.
Proof.
  intros Harr. pose proof (isArray_truthy _ Harr) as Htruthy.
  unfold chat_handler.
  destruct req_body; try discriminate Harr; rewrite Harr, Htruthy; reflexivity.
Qed.

Section Handler.

Variable generateContent :
  GenerateContentParameters -> Completion Upstream.GenerateContentResponse.

(** C4, as the code has it. The chat operation is registered for POST
    requests on the path /api/chat, and a request there whose parsed body
    has no [chatHistory] member, or one that is not an array, is answered
    with status 400 and the body [{error: 'Invalid chat history provided.'}]
    without any call of the provider. *)
Theorem invalid_history_is_rejected req_body :
  req_body <> JNull ->
  isArray (prop req_body "chatHistory") = false ->
  app generateContent POST "/api/chat" req_body = chat_handler generateContent req_body /\
  app generateContent POST "/api/chat" req_body =
    {| outcome := Responded {| status := 400;
                               body := ErrorBody "Invalid chat history provided." |};
       upstream_calls := []; console := [] |}.
Proof.
  intros Hnull Harr. split; [reflexivity |].
  change (app generateContent POST "/api/chat" req_body)
    with (chat_handler generateContent req_body).
  unfold chat_handler.
  destruct req_body; try congruence; rewrite Harr, orb_true_r; reflexivity.
Qed.

(** C7. Whatever the provider answers, the handler responds with a text:
    the first candidate's first content part's text when that text is
    present, the fixed placeholder otherwise; the text is never empty. *)
Theorem returned_text req_body response :
  isArray (prop req_body "chatHistory") = true ->
  generateContent (chat_params (prop req_body "chatHistory")) = inr response ->
  exists text sources,
    outcome (chat_handler generateContent req_body)
      = Responded {| status := 200; body := ChatBody text sources |} /\
    (forall t, first_text response = Some t -> t <> "" -> text = t) /\
    (text_present response = false -> text = PLACEHOLDER_TEXT) /\
    text <> "".
Proof.
  intros Harr Hgc. rewrite (chat_handler_valid _ _ Harr). cbn zeta. rewrite Hgc.
  cbn [outcome]. rewrite normalize_spec. unfold text_present, truthy_opt_string.
  destruct (first_text response) as [t |] eqn:Ht.
  - destruct (truthy_string t) eqn:Htruthy.
    + eexists _, _. split; [reflexivity |]. cbn [default].
      split; [intros t' [= <-] _; reflexivity |].
      split; [discriminate |]. now apply truthy_string_true.
    + eexists _, _. split; [reflexivity |].
      split; [| split; [reflexivity | discriminate]].
      intros t' [= <-] Hne. destruct t; [congruence | discriminate Htruthy].
  - eexists _, _. split; [reflexivity |].
    split; [discriminate |]. split; [reflexivity | discriminate].
Qed.

(** C8, as the code has it. When the first candidate's first content part
    has a text, the returned sources are exactly the complete grounding
    attributions, each as [{uri, title}] and in their order: an attribution
    that lacks the uri or the title, or has an empty one, is dropped. When
    the grounding attributions are absent the handler still responds with
    status 200, and with no sources. Every returned source has both
    fields. *)
Theorem returned_sources req_body response :
  isArray (prop req_body "chatHistory") = true ->
  generateContent (chat_params (prop req_body "chatHistory")) = inr response ->
  exists text sources,
    outcome (chat_handler generateContent req_body)
      = Responded {| status := 200; body := ChatBody text sources |} /\
    (text_present response = true ->
     forall l, attributions_of response = Some l -> sources = complete_attributions l) /\
    (attributions_of response = None -> sources = []) /\
    Forall well_formed sources.
Proof.
  intros Harr Hgc. rewrite (chat_handler_valid _ _ Harr). cbn zeta. rewrite Hgc.
  cbn [outcome]. rewrite normalize_spec.
  destruct (text_present response).
  - destruct (attributions_of response) as [l |].
    + eexists _, _. split; [reflexivity |].
      split; [intros _ l' [= <-]; reflexivity |]. split; [discriminate |].
      apply Forall_forall. intros s Hs. unfold complete_attributions in Hs.
      apply list_elem_of_omap in Hs as (a & _ & Ha).
      exact (complete_well_formed a s Ha).
    + eexists _, _. split; [reflexivity |].
      split; [discriminate |]. split; [reflexivity | constructor].
  - eexists _, _. split; [reflexivity |].
    split; [discriminate |]. split; [reflexivity | constructor].
Qed.

(** C9. When the provider call throws, the handler responds with status
    500 and the fixed body [{error: 'Failed to communicate with the AI
    service.'}]: a response other than the one for invalid input, and the
    same whatever was thrown; the error goes to the server's console. *)
Theorem upstream_failure_is_generic req_body error :
  isArray (prop req_body "chatHistory") = true ->
  generateContent (chat_params (prop req_body "chatHistory")) = inl error ->
  chat_handler generateContent req_body =
    {| outcome := Responded {| status := 500;
                               body := ErrorBody "Failed to communicate with the AI service." |};
       upstream_calls := [chat_params (prop req_body "chatHistory")];
       console := [error] |} /\
  UPSTREAM_FAILURE <> INVALID_INPUT /\
  (forall otherProvider otherError,
     otherProvider (chat_params (prop req_body "chatHistory")) = inl otherError ->
     outcome (chat_handler otherProvider req_body)
       = outcome (chat_handler generateContent req_body)).
Proof.
  intros Harr Hgc. rewrite (chat_handler_valid _ _ Harr). cbn zeta. rewrite Hgc.
  split; [reflexivity |]. split; [discriminate |].
  intros otherProvider otherError Hother.
  rewrite (chat_handler_valid _ _ Harr). cbn zeta. rewrite Hother. reflexivity.
Qed.

(** C10. When the first candidate's first content part's text is absent,
    the handler responds with status 200, the placeholder text and no
    sources, whatever grounding attributions the answer holds; every answer
    of the provider, with or without text, gets status 200. *)
Theorem placeholder_comes_without_sources req_body response :
  isArray (prop req_body "chatHistory") = true ->
  generateContent (chat_params (prop req_body "chatHistory")) = inr response ->
  text_present response = false ->
  outcome (chat_handler generateContent req_body)
    = Responded {| status := 200; body := ChatBody PLACEHOLDER_TEXT [] |} /\
  (forall anyResponse, status (normalize anyResponse) = 200%nat).
Proof.
  intros Harr Hgc Habsent. rewrite (chat_handler_valid _ _ Harr). cbn zeta. rewrite Hgc.
  cbn [outcome]. rewrite normalize_spec, Habsent. split; [reflexivity |].
  intros anyResponse. rewrite normalize_spec. reflexivity.
Qed.

End Handler.

Lemma invalid_history_is_rejected_witness :
  app (answers plain_answer) POST "/api/chat" body_with_text_history =
    {| outcome := Responded {| status := 400;
                               body := ErrorBody "Invalid chat history provided." |};
       upstream_calls := []; console := [] |}.
Proof.
  refine (proj2 (invalid_history_is_rejected (answers plain_answer)
                   body_with_text_history _ eq_refl)).
  discriminate.
Defined.

(** C4, as stated, fails: a POST request on the path /chat is not taken by
    the chat route, so that a body without [chatHistory] gets no status 400
    from it. *)
Lemma chat_path_is_not_routed :
  isArray (prop body_without_history "chatHistory") = false /\
  outcome (app (answers plain_answer) POST "/chat" body_without_history) = NoRoute /\
  outcome (app (answers plain_answer) POST "/chat" body_without_history)
    <> Responded INVALID_INPUT.
Proof. split; [reflexivity |]. split; [reflexivity | discriminate]. Qed.

Lemma returned_text_witness :
  exists text sources,
    outcome (chat_handler (answers grounded_answer) valid_body)
      = Responded {| status := 200; body := ChatBody text sources |} /\
    text = "Try oats.".
Proof.
  destruct (returned_text (answers grounded_answer) valid_body grounded_answer
              eq_refl eq_refl) as (text & sources & Hout & Htext & _).
  exists text, sources. split; [exact Hout |].
  apply Htext; [reflexivity | discriminate].
Defined.

Lemma returned_sources_witness :
  exists text sources,
    outcome (chat_handler (answers grounded_answer) valid_body)
      = Responded {| status := 200; body := ChatBody text sources |} /\
    sources = [ {| uri := Some "https://example.org/oats"; title := Some "Oats" |};
                {| uri := Some "https://example.org/rice"; title := Some "Rice" |} ].
Proof.
  destruct (returned_sources (answers grounded_answer) valid_body grounded_answer
              eq_refl eq_refl) as (text & sources & Hout & Hsrc & _).
  exists text, sources. split; [exact Hout |].
  exact (Hsrc eq_refl sample_attributions eq_refl).
Defined.

(** C8, as stated, fails: the answer holds grounding metadata with two
    complete attributions but no text, and the returned sources are
    empty. *)
Lemma sources_dropped_without_text :
  attributions_of textless_answer = Some sample_attributions /\
  complete_attributions sample_attributions
    = [ {| uri := Some "https://example.org/oats"; title := Some "Oats" |};
        {| uri := Some "https://example.org/rice"; title := Some "Rice" |} ] /\
  outcome (chat_handler (answers textless_answer) valid_body)
    = Responded {| status := 200; body := ChatBody PLACEHOLDER_TEXT [] |}.
Proof. split; [reflexivity |]. split; reflexivity. Qed.

Lemma upstream_failure_is_generic_witness :
  outcome (chat_handler (throws (Error "429 quota exceeded")) valid_body)
    = Responded {| status := 500;
                   body := ErrorBody "Failed to communicate with the AI service." |}.
Proof.
  exact (f_equal outcome
           (proj1 (upstream_failure_is_generic (throws (Error "429 quota exceeded"))
                     valid_body (Error "429 quota exceeded") eq_refl eq_refl))).
Defined.

Lemma placeholder_comes_without_sources_witness :
  outcome (chat_handler (answers textless_answer) valid_body)
    = Responded {| status := 200; body := ChatBody PLACEHOLDER_TEXT [] |}.
Proof.
  exact (proj1 (placeholder_comes_without_sources (answers textless_answer) valid_body
                  textless_answer eq_refl eq_refl eq_refl)).
Defined.

End ServerSpec.

(** * More on the retry wrapper *)

Module RetrySpec.
Import Client Retry ClientSpec.

Lemma backoff_pos retries : (0 < backoff retries)%Z.
Proof. unfold backoff. assert (0 < 2 ^ Z.of_nat retries)%Z by (apply Z.pow_pos_nonneg; lia). lia. Qed.

Lemma backoff_S retries : backoff (S retries) = (2 * backoff retries)%Z.
Proof. unfold backoff. rewrite Nat2Z.inj_succ, Z.pow_succ_r by lia. lia. Qed.

Lemma total_delay_failing_chain url options : forall budget retries,
  (total_delay (failing_chain url options retries budget) + backoff retries
   = backoff (retries + budget))%Z.
Proof.
  induction budget as [| b IH]; intros retries.
  - rewrite Nat.add_0_r. reflexivity.
  - change (failing_chain url options retries (S b))
      with ([Fetched url options; Slept (backoff retries)]
              ++ failing_chain url options (S retries) b).
    rewrite total_delay_app.
    replace (retries + S b)%nat with (S retries + b)%nat by lia.
    rewrite <- IH, backoff_S.
    change (total_delay [Fetched url options; Slept (backoff retries)])
      with (backoff retries + 0)%Z.
    lia.
Qed.

Lemma sent_histories_failing_chain url options : forall budget retries,
  sent_histories (failing_chain url options retries budget)
  = replicate (S budget) (body options).
Proof.
  induction budget as [| b IH]; intros retries; [reflexivity |].
  change (failing_chain url options retries (S b))
    with ([Fetched url options; Slept (backoff retries)]
            ++ failing_chain url options (S retries) b).
  rewrite sent_histories_app, IH. reflexivity.
Qed.

Lemma failing_chain_delay_bound url options retries k :
  (k <= MAX_RETRIES - retries)%nat ->
  (0 <= total_delay (failing_chain url options retries k) <= 31000)%Z.
Proof.
  intros Hk.
  pose proof (total_delay_failing_chain url options k retries) as Hd.
  pose proof (backoff_pos retries) as Hp.
  destruct (Nat.le_gt_cases retries MAX_RETRIES) as [Hle | Hgt].
  - assert (backoff (retries + k) <= backoff 5)%Z as Hmax.
    { unfold backoff. apply Z.mul_le_mono_nonneg_r; [lia |].
      apply Z.pow_le_mono_r; unfold MAX_RETRIES in *; lia. }
    assert (backoff retries <= backoff (retries + k))%Z as Hmono.
    { unfold backoff. apply Z.mul_le_mono_nonneg_r; [lia |].
      apply Z.pow_le_mono_r; lia. }
    assert (1000 <= backoff retries)%Z as Hmin.
    { unfold backoff.
      assert (1 <= 2 ^ Z.of_nat retries)%Z
        by (change 1%Z with (2 ^ 0)%Z at 1; apply Z.pow_le_mono_r; lia).
      lia. }
    change (backoff 5) with 32000%Z in Hmax. lia.
  - assert (k = 0)%nat as -> by (unfold MAX_RETRIES in *; lia).
    rewrite Nat.add_0_r in Hd. lia.
Qed.

Section Retry.

Variable network : nat -> string -> Options -> FetchOutcome.

Lemma attempt_settle url options tr :
  attempt network url options tr
  = (settle (network (fetches tr) url options), tr ++ [Fetched url options]).
Proof.
  unfold attempt, settle. destruct (network _ _ _) as [e | r]; [reflexivity |].
  destruct (negb (ok r)); [reflexivity |]. now destruct (json r).
Qed.

(** The shape of every run: [k] failed attempts, each followed by its
    back-off wait, and one last attempt whose completion is the result. *)
Lemma fetchWithRetry_shape url options : forall budget retries tr,
  (MAX_RETRIES - retries <= budget)%nat ->
  exists k,
    (k <= MAX_RETRIES - retries)%nat /\
    fetchWithRetry network url options retries tr
      = (settle (network (fetches tr + k)%nat url options),
         tr ++ failing_chain url options retries k) /\
    (forall j, (j < k)%nat -> failed (network (fetches tr + j)%nat url options) = true) /\
    ((k < MAX_RETRIES - retries)%nat ->
     failed (network (fetches tr + k)%nat url options) = false).
Proof.
  induction budget as [| b IH]; intros retries tr Hb;
    rewrite fetchWithRetry_body, attempt_settle;
    destruct (settle (network (fetches tr) url options)) as [error | v] eqn:Hs.
  - destruct (Nat.ltb_spec retries MAX_RETRIES); [lia |].
    exists 0%nat. rewrite Nat.add_0_r, Hs. repeat split; intros; lia.
  - exists 0%nat. rewrite Nat.add_0_r, Hs. repeat split; lia.
  - destruct (Nat.ltb_spec retries MAX_RETRIES).
    + destruct (IH (S retries) (sleep (backoff retries) (tr ++ [Fetched url options])))
        as (k & Hk & Hrun & Hbefore & Hlast); [lia |].
      rewrite fetches_sleep, fetches_fetched in Hrun, Hbefore, Hlast.
      exists (S k). split; [lia |]. split; [| split].
      * rewrite Hrun. unfold sleep. rewrite <- !app_assoc. cbn [app failing_chain].
        now replace (fetches tr + S k)%nat with (S (fetches tr) + k)%nat by lia.
      * intros [| j] Hj.
        -- rewrite Nat.add_0_r. unfold failed. now rewrite Hs.
        -- replace (fetches tr + S j)%nat with (S (fetches tr) + j)%nat by lia.
           apply Hbefore. lia.
      * intros Hlt. replace (fetches tr + S k)%nat with (S (fetches tr) + k)%nat by lia.
        apply Hlast. lia.
    + exists 0%nat. rewrite Nat.add_0_r, Hs. repeat split; intros; lia.
  - exists 0%nat. rewrite Nat.add_0_r, Hs. repeat split; try lia.
    intros _. unfold failed. now rewrite Hs.
Qed.

Lemma last_failing_chain url options : forall budget retries,
  last (failing_chain url options retries budget) = Some (Fetched url options).
Proof.
  induction budget as [| b IH]; intros retries; [reflexivity |].
  cbn [failing_chain]. rewrite !last_cons, IH. reflexivity.
Qed.

(** X1. Whatever the network does and whatever the counter it is called
    with, one call of the wrapper makes at least one and at most six
    requests ([k + 1] with [k <= MAX_RETRIES - retries]), all with the url
    and the options it was given, waits between them only, at most 31 s in
    all, and ends with a request. *)
Theorem retry_chain_is_bounded url options retries tr :
  exists k,
    (k <= MAX_RETRIES - retries)%nat /\
    let evs := failing_chain url options retries k in
    snd (fetchWithRetry network url options retries tr) = tr ++ evs /\
    fetches evs = S k /\
    (1 <= fetches evs <= 6)%nat /\
    sent_histories evs = replicate (S k) (body options) /\
    last evs = Some (Fetched url options) /\
    (0 <= total_delay evs <= 31000)%Z.
Proof.
  destruct (fetchWithRetry_shape url options (MAX_RETRIES - retries) retries tr
              (Nat.le_refl _)) as (k & Hk & Hrun & _).
  exists k. split; [exact Hk |]. cbn zeta. rewrite Hrun. cbn [snd].
  rewrite fetches_failing_chain, sent_histories_failing_chain, last_failing_chain.
  split; [reflexivity |]. split; [reflexivity |].
  split; [unfold MAX_RETRIES in Hk; lia |]. split; [reflexivity |].
  split; [reflexivity |].
  exact (failing_chain_delay_bound url options retries k Hk).
Qed.

(** X2. When the first [k] attempts of a call fail (in transit or in the
    parse) and the next one succeeds, with [k] at most 5, the wrapper
    returns that attempt's reply after exactly [k + 1] requests and waits
    of [(2^k - 1)] s in all, and the run ends with the successful request:
    nothing is waited for after it. *)
Theorem first_success_is_returned url options tr k v :
  (k <= MAX_RETRIES)%nat ->
  (forall j, (j < k)%nat -> failed (network (fetches tr + j)%nat url options) = true) ->
  settle (network (fetches tr + k)%nat url options) = inr v ->
  let run := fetchWithRetry network url options 0 tr in
  fst run = inr v /\
  snd run = tr ++ failing_chain url options 0 k /\
  fetches (snd run) = (fetches tr + S k)%nat /\
  total_delay (snd run) = (total_delay tr + (2 ^ Z.of_nat k - 1) * 1000)%Z /\
  last (snd run) = Some (Fetched url options).
Proof.
  intros Hk Hbefore Hok run. subst run.
  destruct (fetchWithRetry_shape url options MAX_RETRIES 0 tr (Nat.le_sub_l _ _))
    as (k' & Hk' & Hrun & Hbefore' & Hlast').
  assert (k' = k) as ->.
  { destruct (Nat.lt_trichotomy k' k) as [Hlt | [Heq | Hgt]]; [| exact Heq |].
    - pose proof (Hbefore k' Hlt) as Hf.
      rewrite Hlast' in Hf by (unfold MAX_RETRIES in *; lia). discriminate Hf.
    - specialize (Hbefore' k Hgt). unfold failed in Hbefore'.
      rewrite Hok in Hbefore'. discriminate. }
  rewrite Hrun, Hok. cbn [fst snd].
  split; [reflexivity |]. split; [reflexivity |].
  split; [rewrite fetches_app, fetches_failing_chain; reflexivity |].
  split.
  - rewrite total_delay_app.
    pose proof (total_delay_failing_chain url options k 0) as Hd.
    unfold backoff in Hd. cbn [Nat.add] in Hd. change (2 ^ Z.of_nat 0)%Z with 1%Z in Hd. lia.
  - rewrite last_app, last_failing_chain. reflexivity.
Qed.

(** X3. A call of the wrapper throws exactly when the six attempts it can
    make all fail; otherwise it returns a reply. *)
Theorem throws_iff_six_attempts_fail url options tr :
  (exists e, fst (fetchWithRetry network url options 0 tr) = inl e) <->
  (forall j, (j <= MAX_RETRIES)%nat ->
     failed (network (fetches tr + j)%nat url options) = true).
Proof.
  destruct (fetchWithRetry_shape url options MAX_RETRIES 0 tr (Nat.le_sub_l _ _))
    as (k & Hk & Hrun & Hbefore & Hlast).
  rewrite Hrun. cbn [fst]. rewrite Nat.sub_0_r in Hk, Hlast. split.
  - intros [e He] j Hj.
    assert (failed (network (fetches tr + k)%nat url options) = true) as Hf
      by (unfold failed; now rewrite He).
    assert (k = MAX_RETRIES) as Hmax.
    { destruct (Nat.eq_dec k MAX_RETRIES) as [| Hne]; [assumption |].
      rewrite Hlast in Hf by lia. discriminate. }
    destruct (Nat.eq_dec j k) as [-> | Hne]; [exact Hf | apply Hbefore; lia].
  - intros Hall. specialize (Hall k Hk). unfold failed in Hall.
    destruct (settle (network (fetches tr + k)%nat url options)) as [e | v];
      [exists e; reflexivity | discriminate].
Qed.

End Retry.

Lemma settle_same_but_failed_bodies network1 network2 n url options :
  same_but_failed_bodies network1 network2 ->
  settle (network1 n url options) = settle (network2 n url options).
Proof.
  intros Hsame. destruct (Hsame n url options) as [-> | (r1 & r2 & -> & -> & Hst & Hok)];
    [reflexivity |].
  assert (ok r2 = false) as Hok2 by (unfold ok in *; now rewrite <- Hst).
  unfold settle. now rewrite Hok, Hok2, Hst.
Qed.

(** X4. The wrapper never reads the body of a response whose status is
    outside 200-299: on two networks that differ in such bodies only, every
    call has the same result and the same trace. *)
Theorem failed_bodies_are_not_read network1 network2 url options retries tr :
  same_but_failed_bodies network1 network2 ->
  fetchWithRetry network1 url options retries tr
  = fetchWithRetry network2 url options retries tr.
Proof.
  intros Hsame.
  remember (MAX_RETRIES - retries)%nat as budget eqn:Hb.
  assert (MAX_RETRIES - retries <= budget)%nat as Hle by lia. clear Hb.
  revert retries tr Hle.
  induction budget as [| b IH]; intros retries tr Hle;
    rewrite (fetchWithRetry_body network1), (fetchWithRetry_body network2),
      !attempt_settle, (settle_same_but_failed_bodies network1 network2 _ _ _ Hsame);
    destruct (settle (network2 (fetches tr) url options)) as [error | v];
    try reflexivity;
    destruct (Nat.ltb_spec retries MAX_RETRIES); try reflexivity; try lia.
  apply IH. lia.
Qed.

Lemma first_success_is_returned_witness :
  fst (fetchWithRetry (down_for 2) CHAT_API_ENDPOINT (request_options []) 0 [])
    = inr sample_reply /\
  fetches (snd (fetchWithRetry (down_for 2) CHAT_API_ENDPOINT (request_options []) 0 []))
    = 3%nat /\
  total_delay (snd (fetchWithRetry (down_for 2) CHAT_API_ENDPOINT (request_options []) 0 []))
    = 3000%Z.
Proof.
  destruct (first_success_is_returned (down_for 2) CHAT_API_ENDPOINT (request_options [])
              [] 2 sample_reply) as (Hres & _ & Hn & Hd & _).
  - unfold MAX_RETRIES. lia.
  - intros [| [| j]] Hj; [reflexivity | reflexivity | lia].
  - reflexivity.
  - split; [exact Hres |]. split; [exact Hn | exact Hd].
Defined.

Lemma failed_bodies_are_not_read_witness :
  fetchWithRetry (down_for 6) CHAT_API_ENDPOINT (request_options []) 0 []
  = fetchWithRetry (down_with_body 6) CHAT_API_ENDPOINT (request_options []) 0 [].
Proof.
  apply (failed_bodies_are_not_read (down_for 6) (down_with_body 6)).
  intros n url options. unfold down_for, down_with_body.
  destruct (n <? 6)%nat; [right | left; reflexivity].
  eexists _, _. split; [reflexivity |]. split; [reflexivity |]. split; reflexivity.
Defined.

End RetrySpec.

(** * More on the page *)

Module EventsSpec.
Import Client Retry Events ClientSpec RetrySpec.

(** ** Trimming *)

Lemma trimEnd_idempotent s : trimEnd (trimEnd s) = trimEnd s.
Proof.
  induction s as [| c s IH]; [reflexivity |].
  cbn [trimEnd]. destruct (trimEnd s) as [| c' r] eqn:E.
  - destruct (is_space c) eqn:Hc; [reflexivity |]. cbn [trimEnd]. now rewrite Hc.
  - change (trimEnd (String c (String c' r)))
      with (match trimEnd (String c' r) with
            | EmptyString => if is_space c then EmptyString else String c EmptyString
            | r' => String c r'
            end).
    now rewrite IH.
Qed.

Lemma trimStart_leading c s : is_space c = false -> trimStart (String c s) = String c s.
Proof. intros H. cbn. now rewrite H. Qed.

Lemma trimEnd_leading c s :
  is_space c = false -> exists r, trimEnd (String c s) = String c r.
Proof.
  intros H. cbn [trimEnd]. destruct (trimEnd s) as [| c' r].
  - rewrite H. now exists EmptyString.
  - now exists (String c' r).
Qed.

Lemma trimStart_cases s :
  trimStart s = "" \/ exists c r, trimStart s = String c r /\ is_space c = false.
Proof.
  induction s as [| c s IH]; [now left |].
  cbn [trimStart]. destruct (is_space c) eqn:Hc; [exact IH |].
  right. now exists c, s.
Qed.

(** Trimming a trimmed string changes nothing. *)
Lemma trim_idempotent s : trim (trim s) = trim s.
Proof.
  unfold trim. destruct (trimStart_cases s) as [-> | (c & r & -> & Hc)]; [reflexivity |].
  destruct (trimEnd_leading c r Hc) as [r' Hr]. rewrite Hr.
  rewrite (trimStart_leading c r' Hc), <- Hr. apply trimEnd_idempotent.
Qed.

Section Page.

Variable network : nat -> string -> Options -> FetchOutcome.

(** [sendMessage] reads the input field, the history, the chat window, the
    console and the trace of the page, and nothing else. *)
Lemma sendMessage_reads st st' :
  input_value st = input_value st' ->
  chatHistory st = chatHistory st' ->
  chat_window st = chat_window st' ->
  console st = console st' ->
  trace st = trace st' ->
  truthy_string (trim (input_value st)) = true ->
  sendMessage network st = sendMessage network st'.
Proof.
  intros Hv Hh Hw Hc Ht Hq.
  rewrite (sendMessage_sent network st Hq).
  rewrite (sendMessage_sent network st') by now rewrite <- Hv.
  unfold round_trip. rewrite <- Hv, <- Hh, <- Hw, <- Hc, <- Ht. reflexivity.
Qed.

(** The requests and waits of one [sendMessage]. *)
Lemma sendMessage_trace st :
  exists evs,
    trace (sendMessage network st) = trace st ++ evs /\
    (fetches evs <= 6)%nat /\
    (0 <= total_delay evs <= 31000)%Z.
Proof.
  destruct (truthy_string (trim (input_value st))) eqn:Hq.
  - destruct (fetchWithRetry_shape network CHAT_API_ENDPOINT
                (request_options (chatHistory st ++ [user_turn (trim (input_value st))]))
                MAX_RETRIES 0 (trace st) (Nat.le_sub_l _ _)) as (k & Hk & Hrun & _).
    exists (failing_chain CHAT_API_ENDPOINT
              (request_options (chatHistory st ++ [user_turn (trim (input_value st))])) 0 k).
    split; [| split].
    + rewrite (sendMessage_sent network st Hq). unfold round_trip. rewrite Hrun.
      destruct (settle _) as [error | [botText sources]]; reflexivity.
    + rewrite fetches_failing_chain. unfold MAX_RETRIES in Hk. lia.
    + exact (failing_chain_delay_bound _ _ 0 k Hk).
  - apply truthy_string_false in Hq. rewrite (sendMessage_blank network st Hq).
    exists []. rewrite app_nil_r. split; [reflexivity |]. split; [cbn; lia |].
    change (total_delay []) with 0%Z. lia.
Qed.

Lemma handle_trace ev ui :
  exists evs,
    trace (fst (handle network ev ui)) = trace (fst ui) ++ evs /\
    (fetches evs <= if may_send ev then 6 else 0)%nat /\
    (0 <= total_delay evs <= if may_send ev then 31000 else 0)%Z.
Proof.
  assert (exists evs : Trace,
            trace (fst ui) = trace (fst ui) ++ evs /\
            (fetches evs <= 0)%nat /\ (0 <= total_delay evs <= 0)%Z) as Hnone.
  { exists []. rewrite app_nil_r. split; [reflexivity |]. split; [reflexivity |].
    change (total_delay []) with 0%Z. lia. }
  assert (exists evs : Trace,
            trace (fst ui) = trace (fst ui) ++ evs /\
            (fetches evs <= 6)%nat /\ (0 <= total_delay evs <= 31000)%Z) as Hsome.
  { exists []. rewrite app_nil_r. split; [reflexivity |]. split; [cbn; lia |].
    change (total_delay []) with 0%Z. lia. }
  destruct ui as [st c]. cbn [fst] in Hnone, Hsome.
  destruct ev as [v | key | | | w | textContent innerText w];
    cbn [handle fst snd may_send]; try exact Hnone.
  - unfold onKeypress. destruct (_ && _); [apply sendMessage_trace | exact Hsome].
  - unfold quick_action, onQuickAction. cbn [fst snd].
    destruct (negb (truthy_string (trim (first_truthy textContent innerText))));
      [exact Hsome |].
    cbn [fst].
    destruct (sendMessage_trace
                (focus (set_input_value (trim (first_truthy textContent innerText)) st)))
      as (evs & Htr & Hbound).
    exists evs. split; [| exact Hbound].
    rewrite Htr. unfold focus. now destruct (input_disabled _).
Qed.


(** X7. No event makes the page send more than six requests or wait more
    than 31 s, and only a key press or a quick action sends any: over a
    sequence of events the trace only grows, by at most six requests and
    31 s of waits for each such event. *)
Theorem events_send_boundedly evs : forall ui,
  let senders := length (List.filter may_send evs) in
  let tr := trace (fst ui) in
  let tr' := trace (fst (handle_all network evs ui)) in
  tr `prefix_of` tr' /\
  (fetches tr' <= fetches tr + 6 * senders)%nat /\
  (total_delay tr <= total_delay tr' <= total_delay tr + 31000 * Z.of_nat senders)%Z.
Proof.
  induction evs as [| ev evs IH]; intros ui; cbn zeta.
  - cbn [handle_all List.filter length]. split; [reflexivity |]. lia.
  - cbn [handle_all]. destruct (IH (handle network ev ui)) as (Hpre & Hn & Hd).
    destruct (handle_trace ev ui) as (evs0 & Htr & Hn0 & Hd0).
    rewrite Htr in Hpre, Hn, Hd. rewrite fetches_app in Hn. rewrite total_delay_app in Hd.
    split; [etransitivity; [apply prefix_app_r; reflexivity | exact Hpre] |].
    cbn [List.filter]. destruct (may_send ev); cbn [length]; lia.
Qed.

(** X8. Typing [v] and pressing a key: only Enter on a non-blank [v]
    submits, and then the page is the one [submit v] gives; any other key,
    or a blank [v], leaves the page as the typing left it. And on any page
    whose input is blank a key press changes nothing, even when the send
    button is enabled. *)
Theorem enter_submits_what_was_typed :
  (forall key v st,
     onKeypress network key (edit v st)
     = if String.eqb key "Enter" && truthy_string (trim v)
       then submit network v st
       else edit v st) /\
  (forall key st, trim (input_value st) = "" -> onKeypress network key st = st).
Proof.
  split.
  - intros key v st. unfold onKeypress, edit, onInput, refresh_send_button.
    cbn [send_disabled set_send_disabled input_value set_input_value].
    destruct (String.eqb key "Enter"); [| reflexivity]. cbn [andb].
    destruct (truthy_string (trim v)) eqn:Hq.
    + assert (String.eqb (trim v) "" = false) as ->
        by (destruct (trim v); [discriminate Hq | reflexivity]).
      cbn [negb]. unfold submit. apply sendMessage_reads; try reflexivity. exact Hq.
    + apply truthy_string_false in Hq. rewrite Hq. reflexivity.
  - intros key st Hblank. unfold onKeypress.
    destruct (_ && _); [apply sendMessage_blank; exact Hblank | reflexivity].
Qed.

End Page.

(** ** The sidebar *)

(** X9. A click on the toggle flips the sidebar and leaves its four
    parts in agreement (all open or all closed); on a state that is in
    agreement two clicks give the state back, and from any state a third
    click does what the first did. *)
Theorem toggle_click_settles c :
  settled (onToggleClick c) /\
  sidebar_open (onToggleClick c) = negb (sidebar_open c) /\
  (settled c -> onToggleClick (onToggleClick c) = c) /\
  onToggleClick (onToggleClick (onToggleClick c)) = onToggleClick c.
Proof.
  split; [| split; [| split]].
  - unfold settled, onToggleClick. destruct (sidebar_open c); [now right | now left].
  - unfold onToggleClick. now destruct (sidebar_open c).
  - intros [H | H]; rewrite H; reflexivity.
  - unfold onToggleClick. now destruct (sidebar_open c).
Qed.

Lemma handle_backdrop network ev ui :
  (backdrop_visible (snd ui) = true -> snd ui = openSidebar (snd ui)) ->
  backdrop_visible (snd (handle network ev ui)) = true ->
  snd (handle network ev ui) = openSidebar (snd (handle network ev ui)).
Proof.
  intros Hinv. destruct ui as [st c]. cbn [snd] in Hinv.
  destruct ev as [v | key | | | w | textContent innerText w]; cbn [handle fst snd];
    try exact Hinv.
  - unfold onToggleClick. destruct (sidebar_open c); [discriminate | reflexivity].
  - discriminate.
  - unfold onResize. destruct (980 <? w)%Z; discriminate.
  - unfold quick_action, onQuickAction. cbn [fst snd].
    destruct (negb (truthy_string (trim (first_truthy textContent innerText))));
      cbn [snd]; [exact Hinv |].
    destruct (w <=? 980)%Z; [discriminate | exact Hinv].
Qed.

Lemma handle_all_backdrop network evs : forall ui,
  (backdrop_visible (snd ui) = true -> snd ui = openSidebar (snd ui)) ->
  backdrop_visible (snd (handle_all network evs ui)) = true ->
  snd (handle_all network evs ui) = openSidebar (snd (handle_all network evs ui)).
Proof.
  induction evs as [| ev evs IH]; intros ui Hinv; [exact Hinv |].
  cbn [handle_all]. apply IH. now apply handle_backdrop.
Qed.

(** X10. Whatever happens on the page after the set-up of the toggle,
    the backdrop is visible only while the sidebar is open, the toggle
    marked as pressed and the scroll of the page locked. *)
Theorem visible_backdrop_means_open network evs st innerWidth sidebar_open0 body_overflow0 :
  let c := snd (handle_all network evs (st, install innerWidth sidebar_open0 body_overflow0)) in
  backdrop_visible c = true ->
  sidebar_open c = true /\
  aria_pressed c = Some "true" /\
  body_overflow c = "hidden".
Proof.
  intros c Hvisible.
  assert (c = openSidebar c) as Hopen.
  { apply handle_all_backdrop; [| exact Hvisible]. cbn [snd]. unfold install.
    destruct (innerWidth <=? 980)%Z; discriminate. }
  rewrite Hopen. repeat split.
Qed.

(** X11. The resize listener closes the sidebar and hides the backdrop
    but never touches the toggle's [aria-pressed], and on a window of at
    most 980 pixels it does not release the scroll of the page either: a
    sidebar that was open is then closed with the page still locked, a
    state in which its parts disagree. *)
Theorem resize_leaves_scroll_locked innerWidth c :
  (innerWidth <= 980)%Z ->
  let c' := onResize innerWidth (openSidebar c) in
  sidebar_open c' = false /\
  backdrop_visible c' = false /\
  aria_pressed c' = Some "true" /\
  body_overflow c' = "hidden" /\
  ~ settled c'.
Proof.
  intros Hw c'. subst c'. unfold onResize.
  destruct (Z.ltb_spec 980 innerWidth); [lia |]. cbn.
  repeat split. intros [Hs | Hs]; discriminate Hs.
Qed.


Lemma enter_submits_what_was_typed_witness :
  onKeypress healthy "Enter" (sendMessage healthy (typed "Hello"))
  = sendMessage healthy (typed "Hello").
Proof.
  exact (proj2 (enter_submits_what_was_typed healthy) "Enter"
           (sendMessage healthy (typed "Hello")) eq_refl).
Defined.

Lemma toggle_click_settles_witness :
  onToggleClick (onToggleClick sample_chrome) = sample_chrome.
Proof.
  refine (proj1 (proj2 (proj2 (toggle_click_settles sample_chrome))) _).
  left. reflexivity.
Defined.

Lemma visible_backdrop_means_open_witness :
  body_overflow
    (snd (handle_all healthy [Resize 1200%Z; ToggleClick; Edit "x"]
            (initial_page, install 600%Z true "")))
  = "hidden".
Proof.
  exact (proj2 (proj2 (visible_backdrop_means_open healthy
                         [Resize 1200%Z; ToggleClick; Edit "x"]
                         initial_page 600%Z true "" eq_refl))).
Defined.

Lemma resize_leaves_scroll_locked_witness :
  body_overflow (onResize 600%Z (openSidebar sample_chrome)) = "hidden" /\
  sidebar_open (onResize 600%Z (openSidebar sample_chrome)) = false.
Proof.
  destruct (resize_leaves_scroll_locked 600%Z sample_chrome) as (Hs & _ & _ & Ho & _).
  - lia.
  - split; [exact Ho | exact Hs].
Defined.

End EventsSpec.

(** * More on the proxy *)

Module HandlerSpec.
Import Server ServerSpec.

Lemma filter_sublist {A} (f : A -> bool) (l : list A) : List.filter f l `sublist_of` l.
Proof.
  induction l as [| x l IH]; cbn [List.filter]; [constructor |].
  destruct (f x); [now apply sublist_skip | now apply sublist_cons].
Qed.

Lemma text_present_first_text response :
  text_present response = true ->
  exists t, first_text response = Some t /\ t <> "".
Proof.
  unfold text_present, truthy_opt_string.
  destruct (first_text response) as [t |]; [| discriminate].
  intros Ht. exists t. split; [reflexivity | now apply truthy_string_true].
Qed.

Section Handler.

Variable generateContent :
  GenerateContentParameters -> Completion Upstream.GenerateContentResponse.

(** X14. The handler calls the provider exactly once when [chatHistory]
    is an array, an empty one included, and never otherwise; the call
    always names the same model, the search tool and the same system
    instruction, and its contents are the [chatHistory] of the request as
    received: nothing else in the body has any effect on it. *)
Theorem provider_call_is_fixed req_body :
  upstream_calls (chat_handler generateContent req_body)
  = (if isArray (prop req_body "chatHistory")
     then [ {| model := "gemini-2.5-flash-preview-09-2025";
               contents := prop req_body "chatHistory";
               config := {| tools := [googleSearch];
                            systemInstruction := SYSTEM_PROMPT |} |} ]
     else []) /\
  (prop req_body "chatHistory" = Some (JArr []) ->
   length (upstream_calls (chat_handler generateContent req_body)) = 1%nat).
Proof.
  assert (upstream_calls (chat_handler generateContent req_body)
          = if isArray (prop req_body "chatHistory")
            then [chat_params (prop req_body "chatHistory")] else []) as Hcalls.
  { destruct (isArray (prop req_body "chatHistory")) eqn:Harr.
    - rewrite (chat_handler_valid _ _ Harr). cbn zeta.
      now destruct (generateContent _).
    - unfold chat_handler.
      destruct req_body; try reflexivity; rewrite Harr, orb_true_r; reflexivity. }
  split; [exact Hcalls |].
  intros Hempty. rewrite Hcalls, Hempty. reflexivity.
Qed.

(** X15. A request with a parsed body is always answered, and in one of
    three ways only: status 200 with a text that is not empty and a list of
    sources; status 400 with the invalid-history error, the provider not
    called; status 500 with the generic error. Something is written to the
    console in the last case only. *)
Theorem handler_answers_in_three_ways req_body :
  req_body <> JNull ->
  let served := chat_handler generateContent req_body in
  exists r,
    outcome served = Responded r /\
    ((status r = 200%nat /\ console served = [] /\
      exists text sources, body r = ChatBody text sources /\ text <> "")
     \/
     (status r = 400%nat /\ console served = [] /\ upstream_calls served = [] /\
      body r = ErrorBody "Invalid chat history provided.")
     \/
     (status r = 500%nat /\ (exists error, console served = [error]) /\
      body r = ErrorBody "Failed to communicate with the AI service.")).
Proof.
  intros Hnull served. subst served.
  destruct (isArray (prop req_body "chatHistory")) eqn:Harr.
  - rewrite (chat_handler_valid _ _ Harr). cbn zeta.
    destruct (generateContent _) as [error | response]; cbn [outcome console upstream_calls].
    + exists UPSTREAM_FAILURE. split; [reflexivity |]. right. right.
      split; [reflexivity |]. split; [now exists error | reflexivity].
    + exists (normalize response). split; [reflexivity |]. left.
      rewrite normalize_spec. destruct (text_present response) eqn:Hp.
      * destruct (text_present_first_text response Hp) as (t & Ht & Hne).
        rewrite Ht. cbn. split; [reflexivity |]. split; [reflexivity |].
        eexists _, _. split; [reflexivity | exact Hne].
      * cbn. split; [reflexivity |]. split; [reflexivity |].
        eexists _, _. split; [reflexivity | discriminate].
  - exists INVALID_INPUT. unfold chat_handler.
    destruct req_body; try congruence; rewrite Harr, orb_true_r;
      cbn [outcome console upstream_calls];
      (split; [reflexivity |]); right; left; repeat split.
Qed.

End Handler.

(** X16. The success response depends on the provider's answer through
    the first candidate only, and there through the text of its first
    content part and its grounding attributions: further candidates and
    further parts are ignored, so that a text in a later part does not
    replace the placeholder. *)
Theorem only_the_first_candidate_counts :
  (forall r1 r2,
     first_text r1 = first_text r2 ->
     attributions_of r1 = attributions_of r2 ->
     normalize r1 = normalize r2) /\
  (forall candidate others,
     normalize {| Upstream.candidates := Some (candidate :: others) |}
     = normalize {| Upstream.candidates := Some [candidate] |}) /\
  (forall part others metadata,
     normalize (answer (part :: others) metadata) = normalize (answer [part] metadata)) /\
  (forall others metadata,
     normalize (answer ({| Upstream.text := None |} :: others) metadata)
     = res_json (ChatBody PLACEHOLDER_TEXT [])).
Proof.
  split; [| split; [| split]].
  - intros r1 r2 Ht Ha. rewrite !normalize_spec. unfold text_present.
    now rewrite Ht, Ha.
  - reflexivity.
  - reflexivity.
  - reflexivity.
Qed.

(** X17. The returned sources are taken from the grounding attributions
    of the first candidate and keep their order: they form a sublist of
    the attributions mapped to [{uri, title}], so there are never more
    sources than attributions, and none without attributions. *)
Theorem sources_follow_the_attributions response :
  exists text sources,
    normalize response = {| status := 200; body := ChatBody text sources |} /\
    match attributions_of response with
    | Some l =>
        sources `sublist_of` map to_source l /\ (length sources <= length l)%nat
    | None => sources = []
    end.
Proof.
  rewrite normalize_spec.
  destruct (text_present response).
  - eexists _, _. split; [reflexivity |].
    destruct (attributions_of response) as [l |]; [| reflexivity].
    rewrite <- filter_map_complete.
    pose proof (filter_sublist has_uri_and_title (map to_source l)) as Hsub.
    split; [exact Hsub |].
    apply sublist_length in Hsub. now rewrite length_map in Hsub.
  - eexists _, _. split; [reflexivity |].
    destruct (attributions_of response) as [l |]; [| reflexivity].
    split; [apply sublist_nil_l | cbn; lia].
Qed.

Lemma provider_call_is_fixed_witness :
  length (upstream_calls
            (chat_handler (answers plain_answer) (JObj [("chatHistory", JArr [])])))
  = 1%nat.
Proof.
  exact (proj2 (provider_call_is_fixed (answers plain_answer)
                  (JObj [("chatHistory", JArr [])])) eq_refl).
Defined.

Lemma handler_answers_in_three_ways_witness :
  exists r,
    outcome (chat_handler (throws (Error "401 bad key")) valid_body) = Responded r.
Proof.
  destruct (handler_answers_in_three_ways (throws (Error "401 bad key")) valid_body)
    as (r & Hr & _).
  - discriminate.
  - exists r. exact Hr.
Defined.

Lemma only_the_first_candidate_counts_witness :
  normalize grounded_answer
  = normalize {| Upstream.candidates :=
                   match Upstream.candidates grounded_answer with
                   | Some l => Some (l ++ l)
                   | None => None
                   end |}.
Proof.
  exact (proj1 only_the_first_candidate_counts _ _ eq_refl eq_refl).
Defined.

End HandlerSpec.

(** * The client in front of the proxy: properties *)

Module WireSpec.
Import Client Retry ClientSpec RetrySpec Wire.

Lemma body_json_chatHistory h :
  Server.prop (body_json h) "chatHistory" = Some (Server.JArr (map turn_json h)).
Proof. reflexivity. Qed.

Lemma endpoint_path : url_path CHAT_API_ENDPOINT = "/api/chat".
Proof. reflexivity. Qed.

(** The chat route on a request of the client. *)
Lemma app_on_client_request provider h :
  Server.app provider Server.POST (url_path CHAT_API_ENDPOINT) (body_json h)
  = match provider (params_for h) with
    | inr response =>
        {| Server.outcome := Server.Responded (Server.normalize response);
           Server.upstream_calls := [params_for h]; Server.console := [] |}
    | inl error =>
        {| Server.outcome := Server.Responded Server.UPSTREAM_FAILURE;
           Server.upstream_calls := [params_for h]; Server.console := [error] |}
    end.
Proof.
  rewrite endpoint_path.
  change (Server.app provider Server.POST "/api/chat" (body_json h))
    with (Server.chat_handler provider (body_json h)).
  rewrite (ServerSpec.chat_handler_valid provider (body_json h) eq_refl).
  reflexivity.
Qed.

Lemma normalize_proxy_text response :
  exists srcs,
    Server.normalize response
    = {| Server.status := 200; Server.body := Server.ChatBody (proxy_text response) srcs |} /\
    Forall Server.well_formed srcs.
Proof.
  rewrite ServerSpec.normalize_spec. unfold proxy_text.
  destruct (Server.text_present response).
  - eexists. split; [reflexivity |].
    destruct (Server.attributions_of response) as [l |]; [| constructor].
    apply Forall_forall. intros s Hs. unfold Server.complete_attributions in Hs.
    apply list_elem_of_omap in Hs as (a & _ & Ha).
    exact (ServerSpec.complete_well_formed a s Ha).
  - eexists. split; [reflexivity | constructor].
Qed.

Lemma proxy_text_not_empty response : proxy_text response <> "".
Proof.
  unfold proxy_text, Server.text_present, Server.truthy_opt_string.
  destruct (Server.first_text response) as [t |]; [| discriminate].
  destruct (truthy_string t) eqn:Ht; [| discriminate].
  cbn [default]. now apply truthy_string_true.
Qed.

(** X18. Every request that [sendMessage] makes is one the proxy takes:
    a POST on the path that the chat route is registered for, with a body
    whose [chatHistory] is an array. The proxy therefore never answers the
    client with the invalid-history error; it calls the provider once, with
    the client's turns as contents, and answers with status 200 or 500. *)
Theorem client_requests_pass_validation provider h :
  method (request_options h) = "POST" /\
  url_path CHAT_API_ENDPOINT = "/api/chat" /\
  let served := Server.app provider Server.POST (url_path CHAT_API_ENDPOINT) (body_json h) in
  Server.upstream_calls served
    = [Server.chat_params (Some (Server.JArr (map turn_json h)))] /\
  exists r,
    Server.outcome served = Server.Responded r /\
    r <> Server.INVALID_INPUT /\
    (Server.status r = 200%nat \/ Server.status r = 500%nat).
Proof.
  split; [reflexivity |]. split; [reflexivity |]. cbn zeta.
  rewrite app_on_client_request.
  destruct (provider (params_for h)) as [error | response];
    cbn [Server.upstream_calls Server.outcome].
  - split; [reflexivity |]. exists Server.UPSTREAM_FAILURE.
    split; [reflexivity |]. split; [discriminate | now right].
  - split; [reflexivity |]. exists (Server.normalize response).
    split; [reflexivity |].
    destruct (normalize_proxy_text response) as (srcs & -> & _).
    split; [discriminate | now left].
Qed.

Section Proxied.

Variable provider : nat -> Server.GenerateContentParameters
                    -> Completion Server.Upstream.GenerateContentResponse.
Variable network : nat -> string -> Options -> FetchOutcome.
Hypothesis Hproxied : proxied provider network.

(** X19. With the proxy as the network: when the provider answers the
    call made for a submission, the submission takes one request and no
    wait, and the history gains the user turn and a model turn whose text
    is the one the proxy chose: the first candidate's first part's text, or
    the placeholder. That text is never empty, and nothing is logged. *)
Theorem answered_submission v st response :
  trim v <> "" ->
  provider (fetches (trace st)) (params_for (chatHistory st ++ [user_turn (trim v)]))
    = inr response ->
  let st' := submit network v st in
  chatHistory st'
    = chatHistory st ++ [user_turn (trim v); model_turn (proxy_text response)] /\
  proxy_text response <> "" /\
  trace st'
    = trace st ++ [Fetched CHAT_API_ENDPOINT
                     (request_options (chatHistory st ++ [user_turn (trim v)]))] /\
  console st' = console st.
Proof.
  intros Hq Hprov st'. subst st'. apply truthy_string_true in Hq.
  set (h := chatHistory st ++ [user_turn (trim v)]) in *.
  destruct (normalize_proxy_text response) as (srcs & Hnorm & _).
  destruct (Hproxied (fetches (trace st)) h (Server.normalize response))
    as (resp & Hnet & Hstatus & Hbody).
  { rewrite app_on_client_request, Hprov. reflexivity. }
  destruct (Hbody (proxy_text response) srcs) as (sources & Hjson & _);
    [now rewrite Hnorm |].
  assert (round_trip network (trim v) st
          = (inr (mkReply (proxy_text response) sources),
             trace st ++ [Fetched CHAT_API_ENDPOINT (request_options h)])) as Hrt.
  { unfold round_trip. fold h. apply fetchWithRetry_success.
    rewrite attempt_settle, Hnet. unfold settle, ok.
    rewrite Hstatus, Hnorm, Hjson. reflexivity. }
  unfold submit. rewrite sendMessage_sent by exact Hq.
  cbn [input_value set_input_value].
  change (round_trip network (trim v) (set_input_value v st))
    with (round_trip network (trim v) st).
  rewrite Hrt. cbn [chatHistory trace console].
  split; [reflexivity |]. split; [apply proxy_text_not_empty |].
  split; reflexivity.
Qed.

(** X20. With the proxy as the network: when the provider fails at each
    of the six calls that the retries of one submission cause, the client
    makes six requests, each answered with status 500, waits 31 s, shows
    the fallback message and logs the error of the last response; the
    history gains the user turn only. *)
Theorem failing_provider_is_called_six_times v st :
  trim v <> "" ->
  (forall k, (k <= MAX_RETRIES)%nat ->
     exists error,
       provider (fetches (trace st) + k)%nat
         (params_for (chatHistory st ++ [user_turn (trim v)])) = inl error) ->
  let st' := submit network v st in
  fetches (trace st') = (fetches (trace st) + 6)%nat /\
  total_delay (trace st') = (total_delay (trace st) + 31000)%Z /\
  sent_histories (trace st')
    = sent_histories (trace st) ++ replicate 6 (chatHistory st ++ [user_turn (trim v)]) /\
  chatHistory st' = chatHistory st ++ [user_turn (trim v)] /\
  console st' = console st ++ [Error "HTTP error! status: 500"] /\
  chat_window st' = chat_window st ++ [messageWrapper (trim v) true [];
                                       messageWrapper FALLBACK_MESSAGE false []].
Proof.
  intros Hq Hprov st'. subst st'. apply truthy_string_true in Hq.
  set (h := chatHistory st ++ [user_turn (trim v)]) in *.
  assert (forall k, (k <= MAX_RETRIES)%nat ->
            exists resp,
              network (fetches (trace st) + k)%nat CHAT_API_ENDPOINT (request_options h)
                = Resolves resp /\ status resp = 500%nat) as Hnet.
  { intros k Hk. destruct (Hprov k Hk) as [error Herr].
    destruct (Hproxied (fetches (trace st) + k)%nat h Server.UPSTREAM_FAILURE)
      as (resp & Hres & Hstatus & _).
    - rewrite app_on_client_request, Herr. reflexivity.
    - now exists resp. }
  assert (round_trip network (trim v) st
          = (inl (Error "HTTP error! status: 500"),
             trace st ++ failing_chain CHAT_API_ENDPOINT (request_options h) 0 5)) as Hrt.
  { unfold round_trip. fold h.
    rewrite (fetchWithRetry_exhausts network CHAT_API_ENDPOINT (request_options h) 5 0
               (trace st) eq_refl).
    - destruct (Hnet 5%nat (Nat.le_refl _)) as (resp & -> & Hstatus).
      unfold transit_error. now rewrite Hstatus.
    - intros k Hk. destruct (Hnet k Hk) as (resp & -> & Hstatus).
      unfold fails_in_transit, ok. now rewrite Hstatus. }
  unfold submit. rewrite sendMessage_sent by exact Hq.
  cbn [input_value set_input_value].
  change (round_trip network (trim v) (set_input_value v st))
    with (round_trip network (trim v) st).
  rewrite Hrt. cbn [chatHistory trace console chat_window].
  rewrite fetches_app, total_delay_app, sent_histories_app.
  repeat split.
Qed.

End Proxied.

Lemma proxy_network_proxied provider : proxied provider (proxy_network provider).
Proof.
  intros n h r Hout. unfold proxy_network.
  cbn [body request_options]. rewrite Hout.
  eexists. split; [reflexivity |]. split; [reflexivity |].
  intros t srcs Hbody. cbn [json]. rewrite Hbody.
  exists (map source_of srcs). split; [reflexivity |].
  assert (Forall Server.well_formed srcs) as Hwf.
  { rewrite app_on_client_request in Hout.
    destruct (provider n (params_for h)) as [error | response];
      cbn [Server.outcome] in Hout; injection Hout as <-.
    - discriminate Hbody.
    - destruct (normalize_proxy_text response) as (srcs' & Hnorm & Hwf).
      rewrite Hnorm in Hbody. cbn [Server.body] in Hbody. now injection Hbody as _ <-. }
  clear Hbody Hout. induction Hwf as [| s srcs (u & t' & Hu & Ht & _) _ IH]; cbn [map].
  - constructor.
  - constructor; [| exact IH]. unfold same_source, source_of.
    rewrite Hu, Ht. split; reflexivity.
Qed.

Lemma answered_submission_witness :
  chatHistory (submit (proxy_network provider_up) "Breakfast ideas?" initial_page)
  = [user_turn "Breakfast ideas?"; model_turn "Try oats."].
Proof.
  refine (proj1 (answered_submission provider_up (proxy_network provider_up)
                   (proxy_network_proxied provider_up)
                   "Breakfast ideas?" initial_page Server.grounded_answer _ eq_refl)).
  discriminate.
Defined.

Lemma failing_provider_is_called_six_times_witness :
  fetches (trace (submit (proxy_network provider_down) "Breakfast ideas?" initial_page))
  = 6%nat.
Proof.
  refine (proj1 (failing_provider_is_called_six_times provider_down
                   (proxy_network provider_down) (proxy_network_proxied provider_down)
                   "Breakfast ideas?" initial_page _ _)).
  - discriminate.
  - intros k _. eexists. reflexivity.
Defined.

End WireSpec.

(** * The page while sends overlap: properties *)

Module AsyncSpec.
Import Client Events Async ClientSpec EventsSpec.

(** ** The halves and the whole *)

Lemma sendMessage_begin_blank st :
  truthy_string (trim (input_value st)) = false -> sendMessage_begin st = (st, None).
Proof. intros H. unfold sendMessage_begin. now rewrite H. Qed.

Lemma sendMessage_begin_sent st :
  truthy_string (trim (input_value st)) = true ->
  sendMessage_begin st
  = (set_chatHistory (chatHistory st ++ [user_turn (trim (input_value st))])
       (set_spinner_hidden false
          (set_send_text_hidden true
             (set_send_disabled true
                (set_input_disabled true
                   (set_input_value ""
                      (displayMessage (trim (input_value st)) true [] st)))))),
     Some (request_options (chatHistory st ++ [user_turn (trim (input_value st))]))).
Proof. intros H. unfold sendMessage_begin. rewrite H. reflexivity. Qed.

Lemma sendMessage_resume_history result st :
  chatHistory (sendMessage_resume result st)
  = chatHistory st ++ match result with
                      | inr (mkReply botText _) => [model_turn botText]
                      | inl _ => []
                      end.
Proof.
  destruct result as [error | [botText sources]].
  - change (chatHistory (sendMessage_resume (inl error) st)) with (chatHistory st).
    now rewrite app_nil_r.
  - reflexivity.
Qed.

(** Run without anything in between, the two halves are [sendMessage]. *)
Lemma sendMessage_splits network st :
  sendMessage network st
  = match sendMessage_begin st with
    | (st1, Some options) =>
        sendMessage_resume
          (fst (fetchWithRetry network CHAT_API_ENDPOINT options 0 (trace st1)))
          (set_trace (snd (fetchWithRetry network CHAT_API_ENDPOINT options 0 (trace st1)))
             st1)
    | (st1, None) => st1
    end.
Proof.
  destruct (truthy_string (trim (input_value st))) eqn:Hq.
  - rewrite (sendMessage_sent network st Hq), (sendMessage_begin_sent st Hq).
    set (q := trim (input_value st)).
    set (rt := round_trip network q st).
    change (fetchWithRetry network CHAT_API_ENDPOINT _ 0 (trace _)) with rt.
    destruct rt as [[error | [botText sources]] tr]; cbn [fst snd].
    + apply Page_eq; try reflexivity.
      change (chat_window st ++ [messageWrapper q true [];
                                 messageWrapper FALLBACK_MESSAGE false []]
              = (chat_window st ++ [messageWrapper q true []])
                  ++ [messageWrapper FALLBACK_MESSAGE false []]).
      now rewrite <- app_assoc.
    + apply Page_eq; try reflexivity.
      * change (chatHistory st ++ [user_turn q; model_turn botText]
                = (chatHistory st ++ [user_turn q]) ++ [model_turn botText]).
        now rewrite <- app_assoc.
      * change (chat_window st ++ [messageWrapper q true [];
                                   messageWrapper botText false sources]
                = (chat_window st ++ [messageWrapper q true []])
                    ++ [messageWrapper botText false sources]).
        now rewrite <- app_assoc.
  - rewrite (sendMessage_begin_blank st Hq).
    apply truthy_string_false in Hq. now apply sendMessage_blank.
Qed.

(** ** Trimming and line breaks *)

Lemma trim_cases s :
  trim s = "" \/ exists c r, trim s = String c r /\ is_space c = false.
Proof.
  unfold trim. destruct (trimStart_cases s) as [-> | (c & r & -> & Hc)]; [now left |].
  right. destruct (trimEnd_leading c r Hc) as [r' Hr]. now exists c, r'.
Qed.

Lemma not_space_not_line_break c :
  is_space c = false ->
  ((nat_of_ascii c =? 10) || (nat_of_ascii c =? 13))%nat = false.
Proof.
  unfold is_space. intros H.
  destruct (Nat.eqb_spec (nat_of_ascii c) 10) as [E | _];
    [rewrite E in H; discriminate H |].
  destruct (Nat.eqb_spec (nat_of_ascii c) 13) as [E | _];
    [rewrite E in H; discriminate H | reflexivity].
Qed.

(** What a quick action sends for a label that is not blank is not blank
    either. *)
Lemma trim_strip_not_empty s :
  trim s <> "" -> trim (strip_line_breaks (trim s)) <> "".
Proof.
  intros Hne. destruct (trim_cases s) as [E | (c & r & E & Hc)]; [contradiction |].
  rewrite E. cbn [strip_line_breaks]. rewrite (not_space_not_line_break c Hc).
  unfold trim. rewrite (trimStart_leading c _ Hc).
  destruct (trimEnd_leading c (strip_line_breaks r) Hc) as [r' ->]. discriminate.
Qed.

Lemma strip_without_line_break s :
  has_line_break s = false -> strip_line_breaks s = s.
Proof.
  induction s as [| c s IH]; [reflexivity |].
  cbn [has_line_break strip_line_breaks]. intros H.
  apply orb_false_iff in H as [Hc Hs]. now rewrite Hc, IH.
Qed.

(** ** Unanswered user turns *)

Lemma unanswered_from_app h1 : forall n h2,
  unanswered_from n (h1 ++ h2)
  = match unanswered_from n h1 with
    | Some m => unanswered_from m h2
    | None => None
    end.
Proof.
  induction h1 as [| t h1 IH]; intros n h2; [reflexivity |].
  cbn [app unanswered_from].
  destruct (String.eqb (role t) "user"); [apply IH |].
  destruct (String.eqb (role t) "model"); [| reflexivity].
  destruct n as [| m]; [reflexivity | apply IH].
Qed.

Lemma unanswered_user_turn h n q :
  unanswered h = Some n -> unanswered (h ++ [user_turn q]) = Some (S n).
Proof. unfold unanswered. intros H. now rewrite unanswered_from_app, H. Qed.

Lemma unanswered_model_turn h n a :
  unanswered h = Some (S n) -> unanswered (h ++ [model_turn a]) = Some n.
Proof. unfold unanswered. intros H. now rewrite unanswered_from_app, H. Qed.

Lemma call_sendMessage_keeps s : keeps s -> keeps (call_sendMessage s).
Proof.
  intros (n & Hn & Hlen & Hturns). unfold call_sendMessage.
  destruct (truthy_string (trim (input_value (page s)))) eqn:Hq.
  - rewrite (sendMessage_begin_sent _ Hq).
    exists (S n). cbn [page in_flight]. split; [| split].
    + change (unanswered (chatHistory (page s) ++ [user_turn (trim (input_value (page s)))])
              = Some (S n)).
      now apply unanswered_user_turn.
    + rewrite length_app. cbn [length]. lia.
    + change (Forall is_page_turn
                (chatHistory (page s) ++ [user_turn (trim (input_value (page s)))])).
      apply Forall_app. split; [exact Hturns |]. constructor; [| constructor].
      left. exists (trim (input_value (page s))).
      split; [reflexivity |]. split; [apply trim_idempotent | now apply truthy_string_true].
  - rewrite (sendMessage_begin_blank _ Hq). exists n. now repeat split.
Qed.

Lemma happen_keeps ev s : keeps s -> keeps (happen ev s).
Proof.
  intros Hkeeps.
  destruct ev as [v | key | textContent innerText w | | k result | | | w]; cbn [happen].
  - exact Hkeeps.
  - destruct (_ && _); [now apply call_sendMessage_keeps | exact Hkeeps].
  - unfold click_quick_action.
    destruct (negb (truthy_string (trim (first_truthy textContent innerText))));
      [exact Hkeeps |].
    destruct Hkeeps as (n & Hn & Hlen & Hturns). exists n. cbn [page in_flight].
    unfold focus, assign_value. now destruct (input_disabled _).
  - destruct (timers s) as [| m]; [exact Hkeeps |]. now apply call_sendMessage_keeps.
  - destruct (in_flight s !! k) as [options |] eqn:Hk; [| exact Hkeeps].
    destruct Hkeeps as (n & Hn & Hlen & Hturns). cbn [page in_flight].
    assert (length (delete k (in_flight s)) = (length (in_flight s) - 1)%nat) as Hdel
      by (apply length_delete; eauto).
    assert (0 < length (in_flight s))%nat as Hpos
      by (apply lookup_lt_Some in Hk; lia).
    unfold keeps. cbn [page in_flight].
    rewrite sendMessage_resume_history, Hdel.
    destruct result as [error | [botText sources]].
    + exists n. rewrite app_nil_r. split; [exact Hn |]. split; [lia | exact Hturns].
    + destruct n as [| m]; [lia |]. exists m.
      split; [now apply unanswered_model_turn |]. split; [lia |].
      apply Forall_app. split; [exact Hturns |]. constructor; [| constructor].
      right. reflexivity.
  - exact Hkeeps.
  - exact Hkeeps.
  - exact Hkeeps.
Qed.

Lemma happen_all_keeps evs : forall s, keeps s -> keeps (happen_all evs s).
Proof.
  induction evs as [| ev evs IH]; intros s Hkeeps; [exact Hkeeps |].
  cbn [happen_all]. apply IH. now apply happen_keeps.
Qed.

(** ** Overlapping sends *)

(** C1. Two submissions whose round trips both succeed do not leave
    alternating roles when the second starts before the first has settled.
    A quick action starts [sendMessage] from its timer without a look at
    the disabled controls (the key press listener, on the same page, does
    nothing while the button is disabled), and [sendMessage] has no guard
    of its own: the second user turn is pushed behind the first, the two
    requests carry one and two user turns, and the two replies then follow,
    giving user, user, model, model: [2N] turns, not alternating. *)
Theorem overlapping_sends_break_alternation :
  let first_started :=
    happen_all [QuickActionClicked "Breakfast ideas" "" 1200; TimerFired] initial_site in
  let second_clicked :=
    happen (QuickActionClicked "Lunch ideas" "" 1200) first_started in
  let second_started := happen TimerFired second_clicked in
  let both_settled :=
    happen_all [Settled 0 (inr breakfast_reply); Settled 0 (inr lunch_reply)]
      second_started in
  send_disabled (page first_started) = true /\
  input_disabled (page first_started) = true /\
  happen (KeyPressed "Enter") second_clicked = second_clicked /\
  in_flight second_started
    = [request_options [user_turn "Breakfast ideas"];
       request_options [user_turn "Breakfast ideas"; user_turn "Lunch ideas"]] /\
  chatHistory (page both_settled)
    = [user_turn "Breakfast ideas"; user_turn "Lunch ideas";
       model_turn "Try oats with berries."; model_turn "Try a lentil salad."] /\
  map role (chatHistory (page both_settled)) = ["user"; "user"; "model"; "model"] /\
  alternates (map role (chatHistory (page both_settled))) = false /\
  in_flight both_settled = [].
Proof.
  cbv zeta.
  split; [vm_compute; reflexivity |]. split; [vm_compute; reflexivity |].
  split; [vm_compute; reflexivity |]. split; [vm_compute; reflexivity |].
  split; [vm_compute; reflexivity |]. split; [vm_compute; reflexivity |].
  split; vm_compute; reflexivity.
Qed.

(** X6. Whatever happens on the page, in any order and with calls of
    [sendMessage] overlapping, a history that started empty with nothing
    pending keeps this shape: every turn is a user turn whose text is
    trimmed and not empty or a turn with the role of the model; read from
    the start, every model
    turn has a user turn of its own before it, so the history never starts
    with a model turn and never holds more model turns than user turns; and
    at least as many user turns are unanswered as calls are pending. *)
Theorem model_turns_answer_user_turns evs s :
  chatHistory (page s) = [] ->
  in_flight s = [] ->
  let s' := happen_all evs s in
  let h := chatHistory (page s') in
  Forall is_page_turn h /\
  (exists n, unanswered h = Some n /\ (length (in_flight s') <= n)%nat) /\
  (forall k, exists m, unanswered (take k h) = Some m) /\
  (forall t, h !! 0%nat = Some t -> is_query_turn t).
Proof.
  intros Hempty Hnone s' h.
  assert (keeps s') as (n & Hn & Hlen & Hturns).
  { apply happen_all_keeps. exists 0%nat. rewrite Hempty, Hnone.
    split; [reflexivity |]. split; [reflexivity | constructor]. }
  fold h in Hn, Hturns.
  split; [exact Hturns |]. split; [now exists n |]. split.
  - intros k. rewrite <- (take_drop k h) in Hn. unfold unanswered in *.
    rewrite unanswered_from_app in Hn.
    destruct (unanswered_from 0 (take k h)) as [m |]; [now exists m | discriminate Hn].
  - intros t Ht. destruct h as [| t0 h0]; [discriminate Ht |].
    injection Ht as ->. apply Forall_cons in Hturns as [[Hq | Hrole] _]; [exact Hq |].
    unfold unanswered in Hn. cbn [unanswered_from] in Hn. rewrite Hrole in Hn.
    discriminate Hn.
Qed.

(** X12. A click on a quick-action button whose label is blank changes
    nothing. Otherwise it writes the trimmed label to the field (which
    drops line breaks), sends nothing yet and leaves [sendMessage] to a
    timer; when the timer fires next, the history gains the user turn of
    what the field holds, trimmed, and one more request is pending with
    that history as its body, whatever the state of the controls and
    however many calls are pending already. The text sent is never blank,
    and it is the trimmed label when that has no line break. *)
Theorem quick_action_sends_without_guard textContent innerText w s :
  let q := trim (first_truthy textContent innerText) in
  let clicked := happen (QuickActionClicked textContent innerText w) s in
  let fired := happen TimerFired clicked in
  let sent := trim (strip_line_breaks q) in
  (q = "" -> clicked = s) /\
  (q <> "" ->
   input_value (page clicked) = strip_line_breaks q /\
   timers clicked = S (timers s) /\
   chatHistory (page clicked) = chatHistory (page s) /\
   in_flight clicked = in_flight s /\
   sent <> "" /\
   chatHistory (page fired) = chatHistory (page s) ++ [user_turn sent] /\
   in_flight fired
     = in_flight s ++ [request_options (chatHistory (page s) ++ [user_turn sent])] /\
   timers fired = timers s /\
   (has_line_break q = false -> sent = q)).
Proof.
  intros q clicked fired sent. split.
  - intros Hq. subst clicked. cbn [happen]. unfold click_quick_action.
    fold q. now rewrite Hq.
  - intros Hq.
    assert (sent <> "") as Hsent by (apply trim_strip_not_empty; exact Hq).
    assert (clicked
            = {| page := focus (assign_value q (page s));
                 chrome := if (w <=? 980)%Z
                           then {| sidebar_open := false; backdrop_visible := false;
                                   aria_pressed := aria_pressed (chrome s);
                                   body_overflow := "" |}
                           else chrome s;
                 timers := S (timers s); in_flight := in_flight s |}) as Hclicked.
    { subst clicked. cbn [happen]. unfold click_quick_action. fold q.
      apply truthy_string_true in Hq. now rewrite Hq. }
    assert (input_value (focus (assign_value q (page s))) = strip_line_breaks q
            /\ chatHistory (focus (assign_value q (page s))) = chatHistory (page s))
      as [Hvalue Hhistory]
      by (unfold focus, assign_value; now destruct (input_disabled _)).
    assert (truthy_string (trim (input_value (focus (assign_value q (page s))))) = true)
      as Htruthy by (rewrite Hvalue; now apply truthy_string_true).
    split; [now rewrite Hclicked |]. split; [now rewrite Hclicked |].
    split; [now rewrite Hclicked |]. split; [now rewrite Hclicked |].
    split; [exact Hsent |].
    assert (fired
            = {| page := fst (sendMessage_begin (focus (assign_value q (page s))));
                 chrome := chrome clicked; timers := timers s;
                 in_flight := in_flight s
                   ++ [request_options (chatHistory (page s) ++ [user_turn sent])] |})
      as Hfired.
    { subst fired. rewrite Hclicked. cbn [happen timers page chrome in_flight].
      unfold call_sendMessage. cbn [page chrome timers in_flight].
      rewrite (sendMessage_begin_sent _ Htruthy), Hvalue, Hhistory. reflexivity. }
    rewrite Hfired. cbn [page in_flight timers].
    split; [| split; [reflexivity | split; [reflexivity |]]].
    + rewrite (sendMessage_begin_sent _ Htruthy), Hvalue. cbn [fst].
      change (chatHistory (focus (assign_value q (page s))) ++ [user_turn sent]
              = chatHistory (page s) ++ [user_turn sent]).
      now rewrite Hhistory.
    + intros Hnone. subst sent. rewrite (strip_without_line_break q Hnone).
      apply trim_idempotent.
Qed.

Lemma model_turns_answer_user_turns_witness :
  exists n,
    unanswered
      (chatHistory
         (page (happen_all
                  [QuickActionClicked "Breakfast ideas" "" 1200; TimerFired;
                   QuickActionClicked "Lunch ideas" "" 1200; TimerFired;
                   Settled 1 (inr lunch_reply)]
                  initial_site)))
    = Some n.
Proof.
  destruct (model_turns_answer_user_turns
              [QuickActionClicked "Breakfast ideas" "" 1200; TimerFired;
               QuickActionClicked "Lunch ideas" "" 1200; TimerFired;
               Settled 1 (inr lunch_reply)]
              initial_site eq_refl eq_refl) as (_ & (n & Hn & _) & _).
  exists n. exact Hn.
Defined.

Lemma quick_action_sends_without_guard_witness :
  chatHistory
    (page (happen TimerFired
             (happen (QuickActionClicked " Lunch ideas " "" 600) initial_site)))
  = [user_turn "Lunch ideas"].
Proof.
  refine (proj1 (proj2 (proj2 (proj2 (proj2 (proj2
            (proj2 (quick_action_sends_without_guard " Lunch ideas " "" 600 initial_site)
               _))))))).
  discriminate.
Defined.

End AsyncSpec.

(** * The markup of a message *)

Module MarkupSpec.
Import Client Events Async.

Lemma append_empty_r (s : string) : (s ++ "")%string = s.
Proof.
  induction s as [| c s IH]; [reflexivity |].
  change (String c (s ++ "")%string = String c s). now rewrite IH.
Qed.

Lemma append_assoc_r (a b c : string) : ((a ++ b) ++ c)%string = (a ++ (b ++ c))%string.
Proof.
  induction a as [| x a IH]; [reflexivity |].
  change (String x ((a ++ b) ++ c)%string = String x (a ++ (b ++ c))%string).
  now rewrite IH.
Qed.

Lemma split_at_line_feeds_not_nil s : split_at_line_feeds s <> [].
Proof.
  destruct s as [| c s]; [discriminate |]. cbn [split_at_line_feeds].
  destruct (nat_of_ascii c =? 10)%nat; [discriminate |].
  destruct (split_at_line_feeds s); discriminate.
Qed.

Lemma concat_pieces sep piece pieces :
  pieces <> [] ->
  String.concat sep (piece :: pieces) = (piece ++ sep ++ String.concat sep pieces)%string.
Proof. destruct pieces; [contradiction | reflexivity]. Qed.

Lemma concat_extend sep c piece pieces :
  String.concat sep (String c piece :: pieces)
  = String c (String.concat sep (piece :: pieces)).
Proof. destruct pieces; reflexivity. Qed.

(** The pieces joined by the line-break element are what the code's
    replacement gives. *)
Lemma replace_newlines_joins s :
  replace_newlines s = String.concat "<br>" (split_at_line_feeds s).
Proof.
  induction s as [| c s IH]; [reflexivity |].
  cbn [replace_newlines split_at_line_feeds].
  destruct (nat_of_ascii c =? 10)%nat.
  - rewrite (concat_pieces _ _ _ (split_at_line_feeds_not_nil s)), IH. reflexivity.
  - rewrite IH. pose proof (split_at_line_feeds_not_nil s) as Hne.
    destruct (split_at_line_feeds s) as [| piece pieces]; [contradiction |].
    now rewrite concat_extend.
Qed.

(** The pieces joined by line feeds are the text. *)
Lemma split_at_line_feeds_joins s :
  String.concat line_feed (split_at_line_feeds s) = s.
Proof.
  induction s as [| c s IH]; [reflexivity |].
  cbn [split_at_line_feeds].
  destruct (nat_of_ascii c =? 10)%nat eqn:Hc.
  - rewrite (concat_pieces _ _ _ (split_at_line_feeds_not_nil s)), IH.
    apply Nat.eqb_eq in Hc.
    rewrite <- (ascii_nat_embedding c), Hc. reflexivity.
  - pose proof (split_at_line_feeds_not_nil s) as Hne.
    destruct (split_at_line_feeds s) as [| piece pieces]; [contradiction |].
    now rewrite concat_extend, IH.
Qed.

Lemma split_at_line_feeds_pieces s :
  Forall (fun piece => has_line_feed piece = false) (split_at_line_feeds s).
Proof.
  induction s as [| c s IH]; [repeat constructor |].
  cbn [split_at_line_feeds].
  destruct (nat_of_ascii c =? 10)%nat eqn:Hc; [constructor; [reflexivity | exact IH] |].
  destruct (split_at_line_feeds s) as [| piece pieces].
  - constructor; [| constructor]. cbn. now rewrite Hc.
  - apply Forall_cons in IH as [Hp Hps]. constructor; [| exact Hps].
    cbn [has_line_feed]. now rewrite Hc, Hp.
Qed.

Lemma concat_links (links : list string) (link : string) :
  String.concat "" (link :: links) = (link ++ String.concat "" links)%string.
Proof.
  destruct links; [| reflexivity].
  cbn [String.concat]. now rewrite append_empty_r.
Qed.

Lemma numbered_links_imap sources : forall n,
  String.concat "" (imap (fun index => source_link (n + index)) sources)
  = numbered_links (S n) sources.
Proof.
  induction sources as [| s sources IH]; intros n; [reflexivity |].
  cbn [imap numbered_links]. rewrite concat_links.
  unfold source_link at 1. rewrite Nat.add_0_r.
  replace (n + 1)%nat with (S n) by lia.
  rewrite <- (IH (S n)).
  rewrite (imap_ext (fun index => source_link (S n + index))
             (fun index => source_link (n + S index)) sources)
    by (intros i x _; cbn; f_equal; lia).
  rewrite !append_assoc_r. reflexivity.
Qed.

(** X13. The wrapper of a message holds its bubble first. The bubble of
    a user message is the text as it is; the bubble of a bot message is the
    text with a line-break element in the place of each line feed: the
    pieces between the line feeds, none of which holds a line feed, joined
    by the element. After the bubble comes the block of sources, exactly
    when there are sources: the heading followed by one anchor for each
    source, in order and numbered from 1. *)
Theorem bubbles_of_a_message text isUser sources :
  children (messageWrapper text isUser sources)
  = {| className := "message-bubble p-3 rounded-xl shadow mt-2 "
                      ++ (if isUser then "user-message" else "bot-message");
       innerHTML := if isUser then text
                    else String.concat "<br>" (split_at_line_feeds text) |}
    :: match sources with
       | [] => []
       | _ :: _ =>
           [ {| className := "text-xs text-gray-500 mt-1 max-w-sm ml-10";
                innerHTML := "Grounded Sources:<br>" ++ numbered_links 1 sources |} ]
       end /\
  String.concat line_feed (split_at_line_feeds text) = text /\
  Forall (fun piece => has_line_feed piece = false) (split_at_line_feeds text).
Proof.
  split; [| split; [apply split_at_line_feeds_joins | apply split_at_line_feeds_pieces]].
  unfold messageWrapper. cbn [children].
  rewrite <- replace_newlines_joins.
  destruct sources as [| s sources]; [reflexivity |].
  cbn [length Nat.ltb Nat.leb].
  rewrite <- (numbered_links_imap (s :: sources) 0). reflexivity.
Qed.

End MarkupSpec.
